(** * Chat client: pipeline narrator, message sending, auth reducer, socket

    A shallow embedding of the stateful parts of the chat front end:
    - [Js]: the few JavaScript value operations the handlers rely on
      (truthiness, [||], optional chaining, template interpolation, [trim]);
    - [Chat]: the [ChatInterface] component state, [appendStatus],
      [handleEvent], the status-clear timer and [sendMessage];
    - [Auth]: [authReducer] of [AuthContext];
    - [Socket]: the module-level socket of [services/socket] and
      [connectSocket];
    - [Sessions], [EventLog], [MessageList], [MessageInput],
      [ChatSidebar]: the session operations of [ChatInterface], its event
      log, and the components around it;
    - [AuthProvider]: [login], [signup], [logout], the mount effect,
      [authAPI] and the HTTP interceptors over [localStorage];
    - [Config], [App]: the configuration defaults and the route guards;
    - [FileUpload], [URLScraper], [DocumentList]: the content management
      lists.

    React state updates are modelled by explicit state passing: each
    [setX(updater)] applies its updater to the latest value, in program
    order. *)

From Stdlib Require Import ZArith QArith Ascii String.
From stdpp Require Import base list strings pretty gmap.

Open Scope Z_scope.
Open Scope string_scope.
Open Scope list_scope.

(* ===================================================================== *)
(** ** JavaScript values *)
(* ===================================================================== *)

Module Js.

(** The values a JSON payload can carry.  Numbers are restricted to
    integers (the payloads carry counts and millisecond timestamps), and
    stand for JavaScript numbers only up to [isSafeInteger] below;
    strings are sequences of code units below 256. *)
#[warnings="-register-all"] Inductive JsVal : Type :=
  | JUndefined
  | JNull
  | JBool (b : bool)
  | JNum (n : Z)
  | JStr (s : string)
  | JArr (items : list JsVal)
  | JObj (fields : list (string * JsVal)).

(** [Number.isSafeInteger]: the integers a JavaScript number holds
    exactly, which are also the ones it prints digit by digit. *)
Definition isSafeInteger (n : Z) : bool := (Z.abs n <=? 9007199254740991)%Z.

(** ToBoolean. *)
Definition truthy (v : JsVal) : bool :=
  match v with
  | JUndefined | JNull => false
  | JBool b => b
  | JNum n => negb (n =? 0)%Z
  | JStr s => negb (s =? "")%string
  | JArr _ | JObj _ => true
  end.

(** [a || b]. *)
Definition or (a b : JsVal) : JsVal := if truthy a then a else b.

(** Own property [k] of an object literal; [undefined] when absent. *)
Fixpoint getField (k : string) (fields : list (string * JsVal)) : JsVal :=
  match fields with
  | [] => JUndefined
  | (k', v) :: rest => if (k =? k')%string then v else getField k rest
  end.

(** [v?.k] for a data key [k] (not [length], not an index, not a
    prototype member): only objects have such keys. *)
Definition optField (k : string) (v : JsVal) : JsVal :=
  match v with
  | JObj fields => getField k fields
  | _ => JUndefined
  end.

(** [v?.length]. *)
Definition optLength (v : JsVal) : JsVal :=
  match v with
  | JArr items => JNum (Z.of_nat (length items))
  | JStr s => JNum (Z.of_nat (String.length s))
  | JObj fields => getField "length" fields
  | _ => JUndefined
  end.

(** ToString, as applied by a template literal [`${v}`].  An array joins
    its elements with commas, [null] and [undefined] elements printing as
    nothing; a plain object prints as [[object Object]].  A number is
    printed as its decimal numeral, which is what JavaScript prints for
    safe integers; larger numbers (rounded by JavaScript, and printed in
    exponent form from 1e21 on) are not covered. *)
Fixpoint toString (v : JsVal) : string :=
  match v with
  | JUndefined => "undefined"
  | JNull => "null"
  | JBool true => "true"
  | JBool false => "false"
  | JNum n => pretty n
  | JStr s => s
  | JArr items =>
      (fix join (l : list JsVal) : string :=
         match l with
         | [] => ""
         | x :: rest =>
             let sx := match x with
                       | JUndefined | JNull => ""
                       | _ => toString x
                       end in
             match rest with
             | [] => sx
             | _ :: _ => sx +:+ "," +:+ join rest
             end
         end) items
  | JObj _ => "[object Object]"
  end.

(** [v === 1]. *)
Definition isOne (v : JsVal) : bool :=
  match v with
  | JNum 1 => true
  | _ => false
  end.

(** WhiteSpace and LineTerminator code units below 256. *)
Definition isWhiteSpace (c : ascii) : bool :=
  let n := nat_of_ascii c in
  ((n =? 9) || (n =? 10) || (n =? 11) || (n =? 12) || (n =? 13)
   || (n =? 32) || (n =? 160))%nat.

Fixpoint trimStart (s : string) : string :=
  match s with
  | EmptyString => EmptyString
  | String c rest => if isWhiteSpace c then trimStart rest else s
  end.

Fixpoint trimEnd (s : string) : string :=
  match s with
  | EmptyString => EmptyString
  | String c rest =>
      match trimEnd rest with
      | EmptyString => if isWhiteSpace c then EmptyString else String c EmptyString
      | rest' => String c rest'
      end
  end.

(** [s.trim()]. *)
Definition trim (s : string) : string := trimEnd (trimStart s).

(** [xs.slice(0, -1)]: all but the last element; [[]] stays [[]]. *)
Definition sliceInit {A : Type} (xs : list A) : list A := removelast xs.

End Js.

(* ===================================================================== *)
(** ** Data model ([types]) *)
(* ===================================================================== *)

Module Types.

Inductive Role : Type := RoleUser | RoleAssistant.

(** The relevance score is only carried, never computed on. *)
Record ContextPassage : Type := {
  cp_title : string;
  cp_source : string;
  cp_url : string;
  cp_score : option Q;
  cp_excerpt : option string;
  cp_matchedTerms : option (list string)
}.

(** Dates are milliseconds since the epoch. *)
Record ChatMessage : Type := {
  msg_id : string;
  msg_role : Role;
  msg_content : string;
  msg_createdAt : Z;
  msg_contextPassages : option (list ContextPassage)
}.

Record ChatSession : Type := {
  sess_id : string;
  sess_title : option string;
  sess_createdAt : Z;
  sess_updatedAt : Z;
  sess_messages : option (list ChatMessage)
}.

Record SendMessageRequest : Type := {
  req_message : string;
  req_sessionId : string
}.

Record User : Type := {
  user_id : Z;
  user_email : string;
  user_name : option string
}.

Record AuthResponse : Type := {
  access_token : string;
  resp_user : User
}.

End Types.

(* ===================================================================== *)
(** ** ChatInterface *)
(* ===================================================================== *)

Module Chat.
Import Js Types.

(** A socket payload is an object: the transport hands every listener the
    object the server emitted. *)
Definition Payload : Type := list (string * JsVal).

Record PipelineStep : Type := {
  step_type : string;
  step_ts : JsVal;
  step_info : Payload
}.

(** The component's [useState] cells, together with the pending
    [setTimeout] callbacks it has scheduled (each is the status clear;
    the list holds their due times in scheduling order). *)
Record State : Type := {
  sessions : list ChatSession;
  currentSession : option ChatSession;
  messages : list ChatMessage;
  isLoading : bool;
  isSending : bool;
  error : option string;
  sidebarOpen : bool;
  pipelineSteps : list PipelineStep;
  statusMessages : list string;
  streaming : bool;
  timers : list Z
}.

Definition initialState : State := {|
  sessions := [];
  currentSession := None;
  messages := [];
  isLoading := false;
  isSending := false;
  error := None;
  sidebarOpen := true;
  pipelineSteps := [];
  statusMessages := [];
  streaming := false;
  timers := []
|}.

Definition setMessages (f : list ChatMessage -> list ChatMessage) (s : State) : State :=
  {| sessions := sessions s; currentSession := currentSession s;
     messages := f (messages s);
     isLoading := isLoading s; isSending := isSending s; error := error s;
     sidebarOpen := sidebarOpen s; pipelineSteps := pipelineSteps s;
     statusMessages := statusMessages s; streaming := streaming s;
     timers := timers s |}.

Definition setIsSending (b : bool) (s : State) : State :=
  {| sessions := sessions s; currentSession := currentSession s;
     messages := messages s;
     isLoading := isLoading s; isSending := b; error := error s;
     sidebarOpen := sidebarOpen s; pipelineSteps := pipelineSteps s;
     statusMessages := statusMessages s; streaming := streaming s;
     timers := timers s |}.

Definition setError (e : option string) (s : State) : State :=
  {| sessions := sessions s; currentSession := currentSession s;
     messages := messages s;
     isLoading := isLoading s; isSending := isSending s; error := e;
     sidebarOpen := sidebarOpen s; pipelineSteps := pipelineSteps s;
     statusMessages := statusMessages s; streaming := streaming s;
     timers := timers s |}.

Definition setPipelineSteps (f : list PipelineStep -> list PipelineStep) (s : State) : State :=
  {| sessions := sessions s; currentSession := currentSession s;
     messages := messages s;
     isLoading := isLoading s; isSending := isSending s; error := error s;
     sidebarOpen := sidebarOpen s; pipelineSteps := f (pipelineSteps s);
     statusMessages := statusMessages s; streaming := streaming s;
     timers := timers s |}.

Definition setStatusMessages (f : list string -> list string) (s : State) : State :=
  {| sessions := sessions s; currentSession := currentSession s;
     messages := messages s;
     isLoading := isLoading s; isSending := isSending s; error := error s;
     sidebarOpen := sidebarOpen s; pipelineSteps := pipelineSteps s;
     statusMessages := f (statusMessages s); streaming := streaming s;
     timers := timers s |}.

Definition setStreaming (b : bool) (s : State) : State :=
  {| sessions := sessions s; currentSession := currentSession s;
     messages := messages s;
     isLoading := isLoading s; isSending := isSending s; error := error s;
     sidebarOpen := sidebarOpen s; pipelineSteps := pipelineSteps s;
     statusMessages := statusMessages s; streaming := b;
     timers := timers s |}.

(** [setTimeout(() => setStatusMessages([]), delay)] called at time [now]. *)
Definition setTimeoutClear (now delay : Z) (s : State) : State :=
  {| sessions := sessions s; currentSession := currentSession s;
     messages := messages s;
     isLoading := isLoading s; isSending := isSending s; error := error s;
     sidebarOpen := sidebarOpen s; pipelineSteps := pipelineSteps s;
     statusMessages := statusMessages s; streaming := streaming s;
     timers := timers s ++ [now + delay] |}.

(** The updater of [appendStatus]: [prev[prev.length - 1] === line] reads
    [undefined] on the empty list, which equals no string. *)
Definition appendLine (line : string) (prev : list string) : list string :=
  match last prev with
  | Some l => if (l =? line)%string then prev else prev ++ [line]
  | None => prev ++ [line]
  end.

Definition appendStatus (line : string) (s : State) : State :=
  setStatusMessages (appendLine line) s.

(** [payload?.results?.length || payload?.resultCount || 0]. *)
Definition searchCount (payload : Payload) : JsVal :=
  Js.or (Js.or (optLength (getField "results" payload))
               (getField "resultCount" payload))
        (JNum 0).

(** [payload?.passages?.length || 0]. *)
Definition contextCount (payload : Payload) : JsVal :=
  Js.or (optLength (getField "passages" payload)) (JNum 0).

Definition searchLine (cnt : JsVal) : string :=
  "Found " +:+ toString cnt +:+ " candidate passage"
    +:+ (if isOne cnt then "" else "s") +:+ ". Refining context...".

Definition contextLine (ctxCnt : JsVal) : string :=
  "Selected top " +:+ toString ctxCnt +:+ " passage"
    +:+ (if isOne ctxCnt then "" else "s") +:+ " to ground the answer.".

(** [handleEvent(type)(payload)], run when the clock reads [now]. *)
Definition handleEvent (type : string) (now : Z) (payload : Payload) (s : State) : State :=
  let s := setPipelineSteps
             (fun prev => prev ++ [ {| step_type := type;
                                       step_ts := Js.or (getField "ts" payload) (JNum now);
                                       step_info := payload |} ]) s in
  if (type =? "embedding_start")%string then
    appendStatus "Analyzing your question (building semantic vector)..." s
  else if (type =? "embedding_done")%string then
    appendStatus "Understanding captured. Searching knowledge base for matches..." s
  else if (type =? "search_start")%string then
    appendStatus "Scanning indexed content for relevant chunks..." s
  else if (type =? "search_results")%string then
    let cnt := searchCount payload in
    appendStatus (searchLine cnt) s
  else if (type =? "rag_context")%string then
    let ctxCnt := contextCount payload in
    appendStatus (contextLine ctxCnt) s
  else if (type =? "ai_start")%string then
    let s := appendStatus "Generating answer grounded in retrieved context..." s in
    setStreaming true s
  else if (type =? "ai_done")%string then
    let s := appendStatus "Answer ready." s in
    let s := setStreaming false s in
    setTimeoutClear now 3000 s
  else s.

(** The event names a listener is registered for. *)
Definition pipelineEvents : list string :=
  ["embedding_start"; "embedding_done"; "search_start"; "search_results";
   "rag_context"; "ai_start"; "ai_done"].

(** What the event loop can deliver to the mounted component: a socket
    event, or a pending status-clear timer coming due. *)
Inductive Input : Type :=
  | SocketEvent (name : string) (now : Z) (payload : Payload)
  | TimerFired (due : Z).

Fixpoint removeFirst (d : Z) (l : list Z) : list Z :=
  match l with
  | [] => []
  | x :: rest => if (x =? d)%Z then rest else x :: removeFirst d rest
  end.

(** The timer callback [() => setStatusMessages([])]; a timer that is not
    pending does not fire. *)
Definition fireTimer (due : Z) (s : State) : State :=
  if existsb (Z.eqb due) (timers s) then
    let s := setStatusMessages (fun _ => []) s in
    {| sessions := sessions s; currentSession := currentSession s;
       messages := messages s;
       isLoading := isLoading s; isSending := isSending s; error := error s;
       sidebarOpen := sidebarOpen s; pipelineSteps := pipelineSteps s;
       statusMessages := statusMessages s; streaming := streaming s;
       timers := removeFirst due (timers s) |}
  else s.

Definition step (i : Input) (s : State) : State :=
  match i with
  | SocketEvent name now payload =>
      if existsb (String.eqb name) pipelineEvents
      then handleEvent name now payload s
      else s
  | TimerFired due => fireTimer due s
  end.

Definition run (inputs : list Input) (s : State) : State :=
  fold_left (fun acc i => step i acc) inputs s.

(** How [await chatAPI.sendMessage(request)] settles. *)
Inductive ApiOutcome : Type :=
  | Fulfilled (response : ChatMessage)
  | Rejected.

(** The remote end as the narrator sees it: for a request, the socket
    events and timer firings the event loop delivers while the call is
    awaited, and how the call settles.  What the user does to the view
    meanwhile is not part of it; [Sessions.sendMessageAmid] runs a send
    with the other operations of the view in between. *)
Definition Api : Type := SendMessageRequest -> list Input * ApiOutcome.

(** The user message built from the input text and two clock readings. *)
Definition newUserMessage (tId tCreated : Z) (content : string) : ChatMessage :=
  {| msg_id := pretty tId;
     msg_role := RoleUser;
     msg_content := trim content;
     msg_createdAt := tCreated;
     msg_contextPassages := None |}.

(** [sendMessage] up to the point where the request is issued.  [None] is
    the early [return].  [tId] and [tCreated] are the two clock readings
    ([Date.now()] and [new Date()]). *)
Definition sendMessage_begin (tId tCreated : Z) (content : string) (s : State)
  : option (State * ChatMessage * SendMessageRequest) :=
  match currentSession s with
  | None => None
  | Some cs =>
      if (trim content =? "")%string then None
      else
        let s := setIsSending true s in
        let s := setError None s in
        let userMessage := newUserMessage tId tCreated content in
        let s := setMessages (fun prev => prev ++ [userMessage]) s in
        let request := {| req_message := trim content;
                          req_sessionId := sess_id cs |} in
        let s := setPipelineSteps (fun _ => []) s in
        let s := setStatusMessages (fun _ => []) s in
        Some (s, userMessage, request)
  end.

(** The continuation after the [await]: the success path, or [catch],
    then [finally]. *)
Definition sendMessage_settle (userMessage : ChatMessage) (o : ApiOutcome) (s : State) : State :=
  let s :=
    match o with
    | Fulfilled response =>
        setMessages (fun prev =>
                       let updatedMessages := sliceInit prev in
                       updatedMessages ++ [userMessage; response]) s
    | Rejected =>
        let s := setError (Some "Failed to send message") s in
        setMessages sliceInit s
    end in
  setIsSending false s.

Definition sendMessage (tId tCreated : Z) (content : string) (api : Api) (s : State) : State :=
  match sendMessage_begin tId tCreated content s with
  | None => s
  | Some (s1, userMessage, request) =>
      let '(during, outcome) := api request in
      sendMessage_settle userMessage outcome (run during s1)
  end.

(** No two neighbours of the list are the same string. *)
Definition noAdjacentDup (l : list string) : Prop :=
  forall (i : nat) (x y : string),
    l !! i = Some x -> l !! S i = Some y -> x <> y.

End Chat.

(* ===================================================================== *)
(** ** AuthContext *)
(* ===================================================================== *)

Module Auth.
Import Types.

Record AuthState : Type := {
  user : option User;
  token : option string;
  isAuthenticated : bool;
  isLoading : bool;
  error : option string
}.

Inductive AuthAction : Type :=
  | AUTH_START
  | AUTH_SUCCESS (payload : AuthResponse)
  | AUTH_ERROR (payload : string)
  | AUTH_LOGOUT
  | CLEAR_ERROR.

(** The reducer at its declared types, where an [AUTH_SUCCESS] payload
    holds a user and a token.  [AuthRuntime.authReducer] is the same
    reducer over the values that can arrive at run time. *)
Definition authReducer (state : AuthState) (action : AuthAction) : AuthState :=
  match action with
  | AUTH_START =>
      {| user := user state; token := token state;
         isAuthenticated := isAuthenticated state;
         isLoading := true;
         error := None |}
  | AUTH_SUCCESS payload =>
      {| isLoading := false;
         isAuthenticated := true;
         user := Some (resp_user payload);
         token := Some (access_token payload);
         error := None |}
  | AUTH_ERROR payload =>
      {| isLoading := false;
         isAuthenticated := false;
         user := None;
         token := None;
         error := Some payload |}
  | AUTH_LOGOUT =>
      {| isLoading := isLoading state;
         isAuthenticated := false;
         user := None;
         token := None;
         error := None |}
  | CLEAR_ERROR =>
      {| user := user state; token := token state;
         isAuthenticated := isAuthenticated state;
         isLoading := isLoading state;
         error := None |}
  end.

Definition initialState : AuthState := {|
  user := None;
  token := None;
  isAuthenticated := false;
  isLoading := false;
  error := None
|}.

(** What [useReducer] holds after the given dispatches, oldest first. *)
Definition dispatchAll (actions : list AuthAction) : AuthState :=
  fold_left authReducer actions initialState.

(** Either signed in, holding a user and a token, or signed out, holding
    neither. *)
Definition signedInOrOut (s : AuthState) : Prop :=
  (isAuthenticated s = true /\ user s <> None /\ token s <> None)
  \/ (isAuthenticated s = false /\ user s = None /\ token s = None).

(** [isAuthenticated] is true exactly when both [user] and [token] are
    non-null. *)
Definition consistent (s : AuthState) : Prop :=
  isAuthenticated s = true <-> (user s <> None /\ token s <> None).

End Auth.

(* ===================================================================== *)
(** ** services/socket *)
(* ===================================================================== *)

Module Socket.

Record Config : Type := {
  SOCKET_URL : string;
  SOCKET_PATH : string
}.

(** A socket object of the client library: the options it was created
    with and its [connected] flag, which the library flips as the
    connection comes up or goes down. *)
Record SocketObj : Type := {
  sock_url : string;
  sock_path : string;
  sock_transports : list string;
  sock_auth : option string;
  connected : bool
}.

(** The module variable [socket] (a reference, or [null]) and the socket
    objects that exist, by reference. *)
Record World : Type := {
  socket : option nat;
  objects : gmap nat SocketObj
}.

(** [io(url, opts)]: a new socket object, not yet connected, under a
    reference no existing object has. *)
Definition io (url path : string) (transports : list string) (auth : option string)
    (w : World) : World * nat :=
  let r := fresh (dom (objects w)) in
  ({| socket := socket w;
      objects := <[r := {| sock_url := url; sock_path := path;
                           sock_transports := transports;
                           sock_auth := auth;
                           connected := false |}]> (objects w) |}, r).

Definition connectSocket (config : Config) (authToken : option string) (w : World)
  : World * nat :=
  let create :=
    let auth := match authToken with
                | Some t => if (t =? "")%string then None else Some t
                | None => None
                end in
    let '(w', r) := io (SOCKET_URL config) (SOCKET_PATH config) ["websocket"] auth w in
    ({| socket := Some r; objects := objects w' |}, r) in
  match socket w with
  | Some r =>
      match objects w !! r with
      | Some o => if connected o then (w, r) else create
      | None => create
      end
  | None => create
  end.

Definition getSocket (w : World) : option nat := socket w.

Definition setConnected (b : bool) (o : SocketObj) : SocketObj :=
  {| sock_url := sock_url o; sock_path := sock_path o;
     sock_transports := sock_transports o; sock_auth := sock_auth o;
     connected := b |}.

Definition disconnectSocket (w : World) : World :=
  match socket w with
  | Some r => {| socket := None; objects := alter (setConnected false) r (objects w) |}
  | None => w
  end.

(** The library's side: the connection of socket [r] is established. *)
Definition established (r : nat) (w : World) : World :=
  {| socket := socket w; objects := alter (setConnected true) r (objects w) |}.

Definition isConnected (w : World) (r : nat) : Prop :=
  exists o, objects w !! r = Some o /\ connected o = true.

Definition emptyWorld : World := {| socket := None; objects := ∅ |}.

End Socket.

(* ===================================================================== *)
(** ** ChatInterface: session operations *)
(* ===================================================================== *)

Module Sessions.
Import Js Types Chat.

(** How an awaited API call settles. *)
Inductive Settled (A : Type) : Type :=
  | Resolves (a : A)
  | Rejects.
Arguments Resolves {A} a.
Arguments Rejects {A}.

(** The chat endpoints of [chatAPI], as the remote end answers them.  An
    operation is run on its own: nothing else is delivered to the view
    while it awaits. *)
Record ChatApi : Type := {
  api_getSessions : Settled (list ChatSession);
  api_getSession : string -> Settled ChatSession;
  api_createSession : option string -> Settled ChatSession;
  api_deleteSession : string -> Settled unit;
  api_clearSession : string -> Settled unit
}.

Definition setSessions (f : list ChatSession -> list ChatSession) (s : State) : State :=
  {| sessions := f (sessions s); currentSession := currentSession s;
     messages := messages s;
     isLoading := isLoading s; isSending := isSending s; error := error s;
     sidebarOpen := sidebarOpen s; pipelineSteps := pipelineSteps s;
     statusMessages := statusMessages s; streaming := streaming s;
     timers := timers s |}.

Definition setCurrentSession (c : option ChatSession) (s : State) : State :=
  {| sessions := sessions s; currentSession := c;
     messages := messages s;
     isLoading := isLoading s; isSending := isSending s; error := error s;
     sidebarOpen := sidebarOpen s; pipelineSteps := pipelineSteps s;
     statusMessages := statusMessages s; streaming := streaming s;
     timers := timers s |}.

Definition setIsLoading (b : bool) (s : State) : State :=
  {| sessions := sessions s; currentSession := currentSession s;
     messages := messages s;
     isLoading := b; isSending := isSending s; error := error s;
     sidebarOpen := sidebarOpen s; pipelineSteps := pipelineSteps s;
     statusMessages := statusMessages s; streaming := streaming s;
     timers := timers s |}.

Definition setSidebarOpen (b : bool) (s : State) : State :=
  {| sessions := sessions s; currentSession := currentSession s;
     messages := messages s;
     isLoading := isLoading s; isSending := isSending s; error := error s;
     sidebarOpen := b; pipelineSteps := pipelineSteps s;
     statusMessages := statusMessages s; streaming := streaming s;
     timers := timers s |}.

(** [sessionData.messages || []]. *)
Definition messagesOrEmpty (sessionData : ChatSession) : list ChatMessage :=
  match sess_messages sessionData with
  | Some l => l
  | None => []
  end.

Definition loadSession (api : ChatApi) (sessionId : string) (s : State) : State :=
  let s := setIsLoading true s in
  let s :=
    match api_getSession api sessionId with
    | Resolves sessionData =>
        let s := setCurrentSession (Some sessionData) s in
        setMessages (fun _ => messagesOrEmpty sessionData) s
    | Rejects => setError (Some "Failed to load chat session") s
    end in
  setIsLoading false s.

(** The body of [loadSessions]; [closureSession] is the [currentSession]
    its closure was created with. *)
Definition loadSessionsFrom (closureSession : option ChatSession)
    (api : ChatApi) (s : State) : State :=
  let s := setIsLoading true s in
  let s :=
    match api_getSessions api with
    | Resolves sessionsData =>
        let s := setSessions (fun _ => sessionsData) s in
        match sessionsData, closureSession with
        | first :: _, None => loadSession api (sess_id first) s
        | _, _ => s
        end
    | Rejects => setError (Some "Failed to load chat sessions") s
    end in
  setIsLoading false s.

(** [loadSessions] as the view runs it.  Its only call is in the mount
    effect, which runs once: the closure was created by the first render
    and holds [currentSession = null] whatever the state is when the list
    arrives. *)
Definition loadSessions (api : ChatApi) (s : State) : State :=
  loadSessionsFrom None api s.

Definition createNewSession (api : ChatApi) (title : option string) (s : State) : State :=
  match api_createSession api title with
  | Resolves newSession =>
      let s := setSessions (fun prev => newSession :: prev) s in
      let s := setCurrentSession (Some newSession) s in
      setMessages (fun _ => []) s
  | Rejects => setError (Some "Failed to create new session") s
  end.

(** [s.id !== sessionId]. *)
Definition otherThan (sessionId : string) (x : ChatSession) : bool :=
  negb (sess_id x =? sessionId)%string.

(** [currentSession?.id === sessionId]. *)
Definition isCurrent (c : option ChatSession) (sessionId : string) : bool :=
  match c with
  | Some cs => (sess_id cs =? sessionId)%string
  | None => false
  end.

(** [deleteSession]; [currentSession] and [sessions] in its body are
    the values the closure was created with. *)
Definition deleteSession (api : ChatApi) (sessionId : string) (s : State) : State :=
  let currentSession0 := currentSession s in
  let sessions0 := sessions s in
  match api_deleteSession api sessionId with
  | Resolves _ =>
      let s := setSessions (List.filter (otherThan sessionId)) s in
      if isCurrent currentSession0 sessionId then
        let s := setCurrentSession None s in
        let s := setMessages (fun _ => []) s in
        let remainingSessions := List.filter (otherThan sessionId) sessions0 in
        match remainingSessions with
        | first :: _ => loadSession api (sess_id first) s
        | [] => s
        end
      else s
  | Rejects => setError (Some "Failed to delete session") s
  end.

Definition clearSession (api : ChatApi) (sessionId : string) (s : State) : State :=
  let currentSession0 := currentSession s in
  match api_clearSession api sessionId with
  | Resolves _ =>
      if isCurrent currentSession0 sessionId
      then setMessages (fun _ => []) s
      else s
  | Rejects => setError (Some "Failed to clear session") s
  end.

Definition handleSessionSelect (api : ChatApi) (session : ChatSession) (s : State) : State :=
  loadSession api (sess_id session) s.

(** Everything that can happen to the mounted view, one complete
    operation at a time. *)
Inductive Action : Type :=
  | DoLoadSessions (api : ChatApi)
  | DoSelect (api : ChatApi) (session : ChatSession)
  | DoNewSession (api : ChatApi)
  | DoDelete (api : ChatApi) (sessionId : string)
  | DoClear (api : ChatApi) (sessionId : string)
  | DoSend (tId tCreated : Z) (content : string) (api : Chat.Api)
  | DoDeliver (i : Input)
  | DoToggleSidebar
  | DoDismissError.

Definition perform (a : Action) (s : State) : State :=
  match a with
  | DoLoadSessions api => loadSessions api s
  | DoSelect api session => handleSessionSelect api session s
  | DoNewSession api => createNewSession api None s
  | DoDelete api sessionId => deleteSession api sessionId s
  | DoClear api sessionId => clearSession api sessionId s
  | DoSend tId tCreated content api => sendMessage tId tCreated content api s
  | DoDeliver i => step i s
  | DoToggleSidebar => setSidebarOpen (negb (sidebarOpen s)) s
  | DoDismissError => setError None s
  end.

Definition performAll (actions : list Action) (s : State) : State :=
  fold_left (fun acc a => perform a acc) actions s.

(** [sendMessage] with the rest of the view left usable while the call
    is awaited: [meanwhile] are the operations that run between the
    request and its settling (the sidebar stays enabled while sending),
    and [outcome] is how the call settles. *)
Definition sendMessageAmid (tId tCreated : Z) (content : string)
    (meanwhile : list Action) (outcome : ApiOutcome) (s : State) : State :=
  match sendMessage_begin tId tCreated content s with
  | None => s
  | Some (s1, userMessage, _) =>
      sendMessage_settle userMessage outcome (performAll meanwhile s1)
  end.

(** No spinner and no pending send. *)
Definition idle (s : State) : Prop := isLoading s = false /\ isSending s = false.

(** The three things the user reads off the view. *)
Definition sameData (s s' : State) : Prop :=
  sessions s' = sessions s
  /\ currentSession s' = currentSession s
  /\ messages s' = messages s.

End Sessions.

(* ===================================================================== *)
(** ** The event log and the message list view *)
(* ===================================================================== *)

Module EventLog.
Import Js Types Chat.

(** The log entry [handleEvent] writes for an input, if a listener is
    registered for it. *)
Definition stepOf (i : Input) : option PipelineStep :=
  match i with
  | SocketEvent name now payload =>
      if existsb (String.eqb name) pipelineEvents
      then Some {| step_type := name;
                   step_ts := Js.or (getField "ts" payload) (JNum now);
                   step_info := payload |}
      else None
  | TimerFired _ => None
  end.

(** Is the input one of the two events that move the streaming flag? *)
Definition movesStreaming (i : Input) : bool :=
  match i with
  | SocketEvent name _ _ => (name =? "ai_start")%string || (name =? "ai_done")%string
  | TimerFired _ => false
  end.

End EventLog.

Module MessageList.
Import Js Types Chat.

(** The inline status block under the messages. *)
Record StatusPanel : Type := {
  panel_lines : list string;
  panel_streaming : bool
}.

(** What [MessageList] renders. *)
Inductive View : Type :=
  | LoadingMessages
  | ReadyToChat
  | Conversation (shown : list ChatMessage) (status : option StatusPanel).

Definition render (messages : list ChatMessage) (isLoading isSending : bool)
    (statusMessages : list string) (streaming : bool) : View :=
  if isLoading then LoadingMessages
  else
    match messages with
    | [] => ReadyToChat
    | _ :: _ =>
        Conversation messages
          (if isSending || (0 <? length statusMessages)%nat
           then Some {| panel_lines := statusMessages; panel_streaming := streaming |}
           else None)
    end.

(** The messages area of [ChatInterface]. *)
Inductive MessagesArea : Type :=
  | StartConversation
  | Messages (v : View).

Definition messagesArea (s : State) : MessagesArea :=
  match currentSession s with
  | Some _ =>
      Messages (render (messages s) (isLoading s) (isSending s)
                  (statusMessages s) (streaming s))
  | None => StartConversation
  end.

End MessageList.

(* ===================================================================== *)
(** ** AuthProvider, authAPI and the HTTP interceptors *)
(* ===================================================================== *)

Module AuthProvider.
Import Js Types Auth.

(** What [JSON.parse] makes of a stored text: it throws, or yields a
    user object, or yields some other JSON value. *)
Inductive Parsed : Type :=
  | ParseThrows
  | ParsedUser (u : User)
  | ParsedOther.

(** [JSON.stringify] on users and [JSON.parse], the two built-ins the
    provider relies on. *)
Record Json : Type := {
  stringify : User -> string;
  parse : string -> Parsed
}.

(** The error an HTTP call is rejected with: [error.response?.status]
    and [error.response?.data?.message]. *)
Record HttpError : Type := {
  err_status : option Z;
  err_message : option string
}.

Inductive Reply (A : Type) : Type :=
  | Ok (a : A)
  | Fail (e : HttpError).
Arguments Ok {A} a.
Arguments Fail {A} e.

(** The reducer state, [localStorage], and the address the response
    interceptor has sent the browser to, if it has. *)
Record World : Type := {
  state : AuthState;
  storage : gmap string string;
  redirect : option string
}.

Definition dispatch (a : AuthAction) (w : World) : World :=
  {| state := authReducer (state w) a; storage := storage w; redirect := redirect w |}.

Definition setItem (k v : string) (w : World) : World :=
  {| state := state w; storage := <[k := v]> (storage w); redirect := redirect w |}.

Definition removeItem (k : string) (w : World) : World :=
  {| state := state w; storage := delete k (storage w); redirect := redirect w |}.

(** The request interceptor: the [Authorization] header it adds. *)
Definition authorizationHeader (store : gmap string string) : option string :=
  match store !! "access_token" with
  | Some tok => if (tok =? "")%string then None else Some ("Bearer " +:+ tok)
  | None => None
  end.

(** The response interceptor's error branch; the error is passed on. *)
Definition onResponseError (e : HttpError) (w : World) : World :=
  match err_status e with
  | Some status =>
      if (status =? 401)%Z then
        let w := removeItem "access_token" w in
        let w := removeItem "user" w in
        {| state := state w; storage := storage w; redirect := Some "/login" |}
      else w
  | None => w
  end.

(** An [api.post] or [api.get] as the caller sees it. *)
Definition request {A : Type} (reply : Reply A) (w : World) : World * Reply A :=
  match reply with
  | Ok a => (w, Ok a)
  | Fail e => (onResponseError e w, Fail e)
  end.

(** [authAPI.logout]. *)
Definition authAPI_logout (w : World) : World :=
  removeItem "user" (removeItem "access_token" w).

(** [authAPI.isAuthenticated]. *)
Definition authAPI_isAuthenticated (w : World) : bool :=
  match storage w !! "access_token" with
  | Some tok => negb (tok =? "")%string
  | None => false
  end.

(** [error.response?.data?.message || fallback]. *)
Definition messageOr (fallback : string) (e : HttpError) : string :=
  match err_message e with
  | Some m => if (m =? "")%string then fallback else m
  | None => fallback
  end.

(** [login] and [signup] differ in the endpoint and the fallback text.
    The boolean tells whether the error was thrown on to the caller. *)
Definition authenticate (J : Json) (fallback : string)
    (reply : Reply AuthResponse) (w : World) : World * bool :=
  let w := dispatch AUTH_START w in
  let '(w, r) := request reply w in
  match r with
  | Ok response =>
      let w := setItem "access_token" (access_token response) w in
      let w := setItem "user" (stringify J (resp_user response)) w in
      (dispatch (AUTH_SUCCESS response) w, false)
  | Fail e =>
      let errorMessage := messageOr fallback e in
      (dispatch (AUTH_ERROR errorMessage) w, true)
  end.

Definition login (J : Json) (reply : Reply AuthResponse) (w : World) : World * bool :=
  authenticate J "Login failed" reply w.

Definition signup (J : Json) (reply : Reply AuthResponse) (w : World) : World * bool :=
  authenticate J "Signup failed" reply w.

Definition logout (w : World) : World :=
  dispatch AUTH_LOGOUT (authAPI_logout w).

Definition clearError (w : World) : World := dispatch CLEAR_ERROR w.

(** The provider's mount effect.  [None]: the stored user text parsed to
    something that is no user, which the typed reducer cannot hold;
    [AuthRuntime.initEffect] covers that load. *)
Definition initEffect (J : Json) (w : World) : option World :=
  match storage w !! "access_token", storage w !! "user" with
  | Some tok, Some userStr =>
      if (tok =? "")%string || (userStr =? "")%string then Some w
      else
        match parse J userStr with
        | ParsedUser u =>
            Some (dispatch (AUTH_SUCCESS {| access_token := tok; resp_user := u |}) w)
        | ParseThrows =>
            Some (removeItem "user" (removeItem "access_token" w))
        | ParsedOther => None
        end
  | _, _ => Some w
  end.

(** A page load: the provider starts from [initialState] over the
    storage found, and runs its mount effect. *)
Definition pageLoad (J : Json) (store : gmap string string) : option World :=
  initEffect J {| state := initialState; storage := store; redirect := None |}.

(** What the app does to the auth world, one complete operation at a
    time; [OtherCallFailed] is any other API call ending in an error. *)
Inductive Op : Type :=
  | OpLogin (reply : Reply AuthResponse)
  | OpSignup (reply : Reply AuthResponse)
  | OpLogout
  | OpClearError
  | OpOtherCallFailed (e : HttpError).

Definition apply (J : Json) (op : Op) (w : World) : World :=
  match op with
  | OpLogin reply => fst (login J reply w)
  | OpSignup reply => fst (signup J reply w)
  | OpLogout => logout w
  | OpClearError => clearError w
  | OpOtherCallFailed e => onResponseError e w
  end.

Definition applyAll (J : Json) (ops : list Op) (w : World) : World :=
  fold_left (fun acc op => apply J op acc) ops w.

(** [localStorage.getItem('token') || undefined], the argument
    [ChatInterface] hands to [connectSocket] when it mounts. *)
Definition socketToken (store : gmap string string) : option string :=
  match store !! "token" with
  | Some tok => if (tok =? "")%string then None else Some tok
  | None => None
  end.

(** The socket part of the [ChatInterface] mount effect. *)
Definition mountSocket (config : Socket.Config) (store : gmap string string)
    (net : Socket.World) : Socket.World * nat :=
  Socket.connectSocket config (socketToken store) net.

End AuthProvider.

(* ===================================================================== *)
(** ** JavaScript string operations *)
(* ===================================================================== *)

Module JsString.

(** [s.endsWith(suffix)]. *)
Definition endsWith (suffix s : string) : bool :=
  (String.length suffix <=? String.length s)%nat
  && (substring (String.length s - String.length suffix) (String.length suffix) s
      =? suffix)%string.

(** [s.slice(0, n)] for [n >= 0]. *)
Definition sliceTo (n : nat) (s : string) : string := substring 0 n s.

(** [s.slice(0, -n)] for [n > 0]. *)
Definition sliceOff (n : nat) (s : string) : string :=
  substring 0 (String.length s - n) s.


(** [xs.join(sep)] on strings. *)
Fixpoint join (sep : string) (xs : list string) : string :=
  match xs with
  | [] => ""
  | [x] => x
  | x :: rest => x +:+ sep +:+ join sep rest
  end.

Definition isDigit (c : ascii) : bool :=
  (48 <=? nat_of_ascii c)%nat && (nat_of_ascii c <=? 57)%nat.

Fixpoint digitsValue (acc : Z) (s : string) : Z :=
  match s with
  | String c rest =>
      if isDigit c
      then digitsValue (10 * acc + Z.of_nat (nat_of_ascii c - 48)) rest
      else acc
  | EmptyString => acc
  end.

Definition startsWithDigit (s : string) : bool :=
  match s with
  | String c _ => isDigit c
  | EmptyString => false
  end.

(** [parseInt(s, 10)]; [None] stands for [NaN].  Leading white space is
    skipped, then an optional sign is read, then the longest run of
    digits.  (Exact below 2^53, where JavaScript numbers are.) *)
Definition parseInt10 (s : string) : option Z :=
  match Js.trimStart s with
  | String "-" rest =>
      if startsWithDigit rest then Some (- digitsValue 0 rest) else None
  | String "+" rest =>
      if startsWithDigit rest then Some (digitsValue 0 rest) else None
  | body => if startsWithDigit body then Some (digitsValue 0 body) else None
  end.

End JsString.

(* ===================================================================== *)
(** ** config *)
(* ===================================================================== *)

Module Config.
Import JsString.

(** [process.env[k] || fallback]. *)
Definition envOr (env : gmap string string) (k fallback : string) : string :=
  match env !! k with
  | Some v => if (v =? "")%string then fallback else v
  | None => fallback
  end.

(** [process.env.NODE_ENV === value]. *)
Definition nodeEnvIs (env : gmap string string) (value : string) : bool :=
  match env !! "NODE_ENV" with
  | Some v => (v =? value)%string
  | None => false
  end.

Record Values : Type := {
  API_BASE_URL : string;
  API_TIMEOUT : option Z;
  SOCKET_URL : string;
  SOCKET_PATH : string;
  isDevelopment : bool;
  isProduction : bool
}.

Definition config (env : gmap string string) : Values :=
  {| API_BASE_URL := envOr env "REACT_APP_API_BASE_URL" "http://localhost:3000/api";
     API_TIMEOUT := parseInt10 (envOr env "REACT_APP_API_TIMEOUT" "30000");
     SOCKET_URL := envOr env "REACT_APP_SOCKET_URL" "http://localhost:3000";
     SOCKET_PATH := envOr env "REACT_APP_SOCKET_PATH" "/ws";
     isDevelopment := nodeEnvIs env "development";
     isProduction := nodeEnvIs env "production" |}.

Definition defaults : list (string * string) :=
  [("REACT_APP_API_BASE_URL", "http://localhost:3000/api");
   ("REACT_APP_SOCKET_URL", "http://localhost:3000");
   ("REACT_APP_SOCKET_PATH", "/ws");
   ("REACT_APP_API_TIMEOUT", "30000")].

Fixpoint getDefaultValue_in (table : list (string * string)) (varName : string)
  : option string :=
  match table with
  | [] => None
  | (k, v) :: rest =>
      if (varName =? k)%string then Some v else getDefaultValue_in rest varName
  end.

Definition getDefaultValue (varName : string) : option string :=
  getDefaultValue_in defaults varName.

(** [!x] on a string that may be undefined. *)
Definition absent (x : option string) : bool :=
  match x with
  | Some v => (v =? "")%string
  | None => true
  end.

Definition requiredEnvVars : list string :=
  ["REACT_APP_API_BASE_URL"; "REACT_APP_SOCKET_URL"].

Definition missingVars (env : gmap string string) : list string :=
  List.filter (fun varName => absent (env !! varName) && absent (getDefaultValue varName))
    requiredEnvVars.

(** What [validateConfig] writes to the console: the warning, if any,
    and whether the configuration is logged. *)
Record Console : Type := {
  warned : option string;
  logged : bool
}.

Definition validateConfig (env : gmap string string) : Console :=
  {| warned :=
       match missingVars env with
       | [] => None
       | _ :: _ =>
           Some ("Warning: Missing environment variables: "
                 +:+ join ", " (missingVars env) +:+ ". Using default values.")
       end;
     logged := isDevelopment (config env) |}.


End Config.

(* ===================================================================== *)
(** ** App: route guards *)
(* ===================================================================== *)

Module App.
Import Auth.

(** The route a location matches. *)
Inductive Path : Type :=
  | PathLogin
  | PathSignup
  | PathChat
  | PathContentManagement
  | PathRoot
  | PathOther.

Inductive Page : Type :=
  | LoginPage
  | SignupPage
  | ChatInterfacePage
  | ContentManagementPage.

Inductive Element : Type :=
  | Show (page : Page)
  | Navigate (to : Path)
  | LoadingScreen.

Definition ProtectedRoute (children : Page) (s : AuthState) : Element :=
  if isLoading s then LoadingScreen
  else if isAuthenticated s then Show children else Navigate PathLogin.

Definition PublicRoute (children : Page) (s : AuthState) : Element :=
  if isAuthenticated s then Navigate PathChat else Show children.

Definition routes (path : Path) (s : AuthState) : Element :=
  match path with
  | PathLogin => PublicRoute LoginPage s
  | PathSignup => PublicRoute SignupPage s
  | PathChat => ProtectedRoute ChatInterfacePage s
  | PathContentManagement => ProtectedRoute ContentManagementPage s
  | PathRoot => Navigate PathChat
  | PathOther => Navigate PathChat
  end.

(** Follows [Navigate] elements for at most [fuel] redirects; [None] if
    a redirect is still pending then. *)
Fixpoint settle (fuel : nat) (path : Path) (s : AuthState) : option Element :=
  match routes path s with
  | Navigate to =>
      match fuel with
      | O => None
      | S fuel' => settle fuel' to s
      end
  | element => Some element
  end.

Definition isProtected (page : Page) : bool :=
  match page with
  | ChatInterfacePage | ContentManagementPage => true
  | LoginPage | SignupPage => false
  end.

End App.

(* ===================================================================== *)
(** ** MessageInput and ChatSidebar *)
(* ===================================================================== *)

Module MessageInput.
Import Js Types Chat.

(** [handleSubmit]: the draft left in the box, and the text handed to
    [onSendMessage], if any. *)
Definition handleSubmit (disabled : bool) (message : string) : string * option string :=
  if negb (trim message =? "")%string && negb disabled
  then ("", Some (trim message))
  else (message, None).

(** The input box as [ChatInterface] wires it: present only while a
    session is open, disabled while sending, and sending through
    [sendMessage]. *)
Definition submit (tId tCreated : Z) (api : Chat.Api) (draft : string) (s : State)
  : string * State :=
  match currentSession s with
  | None => (draft, s)
  | Some _ =>
      match handleSubmit (isSending s) draft with
      | (draft', Some text) => (draft', sendMessage tId tCreated text api s)
      | (draft', None) => (draft', s)
      end
  end.

End MessageInput.

Module ChatSidebar.
Import Js Types JsString.

(** [getSessionTitle]; [formatDate] is the sidebar's date label, which
    depends on the clock and the locale. *)
Definition getSessionTitle (formatDate : Z -> string) (session : ChatSession) : string :=
  match sess_title session with
  | Some title =>
      if (title =? "")%string then "Chat from " +:+ formatDate (sess_createdAt session)
      else
        let base := if endsWith "..." title then sliceOff 3 title else title in
        if (8 <? String.length base)%nat then sliceTo 8 base +:+ "..." else base
  | None => "Chat from " +:+ formatDate (sess_createdAt session)
  end.

End ChatSidebar.

(* ===================================================================== *)
(** ** FileUpload *)
(* ===================================================================== *)

Module FileUpload.

Record File : Type := {
  file_name : string;
  file_size : Z
}.

Inductive Status : Type := Pending | Uploading | Success | Error.

Definition Status_eqb (a b : Status) : bool :=
  match a, b with
  | Pending, Pending | Uploading, Uploading | Success, Success | Error, Error => true
  | _, _ => false
  end.

Record UploadFile : Type := {
  up_file : File;
  up_id : string;
  up_status : Status;
  up_progress : Z;
  up_error : option string
}.

(** How [contentAPI.uploadFile] settles: fulfilled, or rejected with an
    error whose [message] may be missing. *)
Inductive UploadOutcome : Type :=
  | Uploaded
  | UploadFailed (message : option string).

(** [handleFileSelect]; each selected file comes with the random id
    drawn for it. *)
Definition handleFileSelect (selected : list (File * string)) (files : list UploadFile)
  : list UploadFile :=
  files ++ map (fun '(file, id) =>
                  {| up_file := file; up_id := id; up_status := Pending;
                     up_progress := 0; up_error := None |}) selected.

Definition removeFile (id : string) (files : list UploadFile) : list UploadFile :=
  List.filter (fun f => negb (up_id f =? id)%string) files.

(** [{ ...f, status: 'uploading', progress: 0 }]. *)
Definition markUploading (f : UploadFile) : UploadFile :=
  {| up_file := up_file f; up_id := up_id f; up_status := Uploading;
     up_progress := 0; up_error := up_error f |}.

(** [{ ...f, status: 'success', progress: 100 }]. *)
Definition markSuccess (f : UploadFile) : UploadFile :=
  {| up_file := up_file f; up_id := up_id f; up_status := Success;
     up_progress := 100; up_error := up_error f |}.

(** [{ ...f, status: 'error', error: error.message || 'Upload failed' }]. *)
Definition markError (message : option string) (f : UploadFile) : UploadFile :=
  {| up_file := up_file f; up_id := up_id f; up_status := Error;
     up_progress := up_progress f;
     up_error := Some match message with
                      | Some m => if (m =? "")%string then "Upload failed" else m
                      | None => "Upload failed"
                      end |}.

(** [prev.map(f => f.id === id ? g(f) : f)]. *)
Definition updateById (id : string) (g : UploadFile -> UploadFile)
    (files : list UploadFile) : list UploadFile :=
  map (fun f => if (up_id f =? id)%string then g f else f) files.

(** One turn of the upload loop, for the [k]-th pending file. *)
Definition uploadOne (outcome : nat -> UploadOutcome) (k : nat)
    (uploadFile : UploadFile) (files : list UploadFile) : list UploadFile :=
  let files := updateById (up_id uploadFile) markUploading files in
  match outcome k with
  | Uploaded => updateById (up_id uploadFile) markSuccess files
  | UploadFailed message => updateById (up_id uploadFile) (markError message) files
  end.

Fixpoint uploadLoop (outcome : nat -> UploadOutcome) (k : nat)
    (pendingFiles : list UploadFile) (files : list UploadFile) : list UploadFile :=
  match pendingFiles with
  | [] => files
  | uploadFile :: rest =>
      uploadLoop outcome (S k) rest (uploadOne outcome k uploadFile files)
  end.

Definition isPending (f : UploadFile) : bool := Status_eqb (up_status f) Pending.

(** [uploadFiles], run on its own; [outcome k] is how the [k]-th upload
    call settles. *)
Definition uploadFiles (outcome : nat -> UploadOutcome) (files : list UploadFile)
  : list UploadFile :=
  let pendingFiles := List.filter isPending files in
  uploadLoop outcome 0 pendingFiles files.

Definition pendingCount (files : list UploadFile) : nat :=
  length (List.filter isPending files).

Definition successCount (files : list UploadFile) : nat :=
  length (List.filter (fun f => Status_eqb (up_status f) Success) files).

Definition errorCount (files : list UploadFile) : nat :=
  length (List.filter (fun f => Status_eqb (up_status f) Error) files).

(** The upload of this entry has come to an end. *)
Definition settled (f : UploadFile) : Prop :=
  up_status f = Success \/ up_status f = Error.

(** What the loop does to one entry: the entry-wise reading of
    [uploadLoop], used to reason about it. *)
Definition settleEntry (o : UploadOutcome) (f : UploadFile) : UploadFile :=
  match o with
  | Uploaded => markSuccess (markUploading f)
  | UploadFailed message => markError message (markUploading f)
  end.

Fixpoint followEntry (outcome : nat -> UploadOutcome) (k : nat)
    (pendingFiles : list UploadFile) (f : UploadFile) : UploadFile :=
  match pendingFiles with
  | [] => f
  | uploadFile :: rest =>
      followEntry outcome (S k) rest
        (if (up_id f =? up_id uploadFile)%string then settleEntry (outcome k) f else f)
  end.

End FileUpload.

(* ===================================================================== *)
(** ** URLScraper and DocumentList *)
(* ===================================================================== *)

Module URLScraper.
Import Js JsString.

Inductive JobStatus : Type := JobPending | JobScraping | JobSuccess | JobError.

Definition JobStatus_eqb (a b : JobStatus) : bool :=
  match a, b with
  | JobPending, JobPending | JobScraping, JobScraping
  | JobSuccess, JobSuccess | JobError, JobError => true
  | _, _ => false
  end.

(** The two shapes a job result has. *)
Inductive JobResult : Type :=
  | IngestCounts (success failed : Z) (errors : list string)
  | IngestSummary (documentIds : list string) (chunkCount : Z)
      (sourceType message : string) (metadata : option JsVal).

Record ScrapeJob : Type := {
  job_id : string;
  job_url : string;
  job_sourceName : string;
  job_status : JobStatus;
  job_result : option JobResult;
  job_error : option string
}.

(** The list of jobs and the three cells of the add form. *)
Record Form : Type := {
  urls : list ScrapeJob;
  newUrl : string;
  sourceName : string;
  isValidUrl : bool
}.

Definition initialForm : Form :=
  {| urls := []; newUrl := ""; sourceName := ""; isValidUrl := true |}.

(** [addUrl]; [validateUrl] tells whether [new URL(url)] succeeds and
    [id] is the random id drawn for the job. *)
Definition addUrl (validateUrl : string -> bool) (id : string) (s : Form) : Form :=
  let trimmedUrl := trim (newUrl s) in
  let trimmedSource := trim (sourceName s) in
  if (trimmedUrl =? "")%string || (trimmedSource =? "")%string then s
  else if negb (validateUrl trimmedUrl) then
    {| urls := urls s; newUrl := newUrl s; sourceName := sourceName s;
       isValidUrl := false |}
  else
    let newJob := {| job_id := id; job_url := trimmedUrl;
                     job_sourceName := trimmedSource; job_status := JobPending;
                     job_result := None; job_error := None |} in
    {| urls := urls s ++ [newJob]; newUrl := ""; sourceName := "";
       isValidUrl := true |}.

Definition removeUrl (id : string) (s : Form) : Form :=
  {| urls := List.filter (fun u => negb (job_id u =? id)%string) (urls s);
     newUrl := newUrl s; sourceName := sourceName s; isValidUrl := isValidUrl s |}.

Definition handleUrlChange (validateUrl : string -> bool) (value : string) (s : Form) : Form :=
  {| urls := urls s; newUrl := value; sourceName := sourceName s;
     isValidUrl :=
       if negb (isValidUrl s) && negb (trim value =? "")%string
       then validateUrl (trim value)
       else isValidUrl s |}.

Definition handleSourceChange (value : string) (s : Form) : Form :=
  {| urls := urls s; newUrl := newUrl s; sourceName := value;
     isValidUrl := isValidUrl s |}.

(** Clicking one of the common sources. *)
Definition pickSource (name url : string) (s : Form) : Form :=
  {| urls := urls s; newUrl := url; sourceName := name; isValidUrl := true |}.

Inductive FormOp : Type :=
  | TypeUrl (value : string)
  | TypeSource (value : string)
  | PickSource (name url : string)
  | ClickAdd (id : string)
  | ClickRemove (id : string).

Definition formStep (validateUrl : string -> bool) (op : FormOp) (s : Form) : Form :=
  match op with
  | TypeUrl value => handleUrlChange validateUrl value s
  | TypeSource value => handleSourceChange value s
  | PickSource name url => pickSource name url s
  | ClickAdd id => addUrl validateUrl id s
  | ClickRemove id => removeUrl id s
  end.

Definition formRun (validateUrl : string -> bool) (ops : list FormOp) (s : Form) : Form :=
  fold_left (fun acc op => formStep validateUrl op acc) ops s.

Record Link : Type := {
  link_title : string;
  link_url : string;
  link_description : string;
  link_selected : bool
}.

(** The counting loop of [processSelectedUrls]; [ingest k] tells whether
    the [k]-th [ingestFromUrl] call is fulfilled. *)
Fixpoint countLoop (ingest : nat -> bool) (k : nat) (selectedLinks : list Link)
    (successCount failCount : Z) : Z * Z :=
  match selectedLinks with
  | [] => (successCount, failCount)
  | _ :: rest =>
      if ingest k
      then countLoop ingest (S k) rest (successCount + 1) failCount
      else countLoop ingest (S k) rest successCount (failCount + 1)
  end.

(** [processSelectedUrls] on the job list, run on its own. *)
Definition processSelectedUrls (ingest : nat -> bool) (selectedLinks : list Link)
    (jobs : list ScrapeJob) : list ScrapeJob :=
  let '(successCount, failCount) := countLoop ingest 0 selectedLinks 0 0 in
  let result :=
    IngestSummary [] successCount "url_batch"
      ("Processed " +:+ pretty successCount +:+ " URLs, "
         +:+ pretty failCount +:+ " failed") None in
  match List.find (fun u => JobStatus_eqb (job_status u) JobPending) jobs with
  | Some currentJob =>
      map (fun u =>
             if (job_id u =? job_id currentJob)%string
             then {| job_id := job_id u; job_url := job_url u;
                     job_sourceName := job_sourceName u;
                     job_status := JobSuccess;
                     job_result := Some result;
                     job_error := job_error u |}
             else u) jobs
  | None => jobs
  end.

(** A job as [addUrl] makes them. *)
Definition wellFormedJob (validateUrl : string -> bool) (u : ScrapeJob) : Prop :=
  job_url u <> "" /\ trim (job_url u) = job_url u /\ validateUrl (job_url u) = true
  /\ job_sourceName u <> "" /\ trim (job_sourceName u) = job_sourceName u.

End URLScraper.

Module DocumentList.
Import Js JsString.









End DocumentList.

(* ===================================================================== *)
(** ** The auth reducer over run-time values *)
(* ===================================================================== *)

Module AuthRuntime.
Import Js Types.

(** The reducer state as it is at run time: [user], [token] and [error]
    hold whatever value an action carried.  TypeScript's [User | null]
    is not checked when an action is dispatched. *)
Record AuthState : Type := {
  user : JsVal;
  token : JsVal;
  isAuthenticated : bool;
  isLoading : bool;
  error : JsVal
}.

(** Actions with their payload fields as they arrive:
    [action.payload.access_token] and [action.payload.user] for
    [AUTH_SUCCESS], [action.payload] for [AUTH_ERROR]. *)
Inductive AuthAction : Type :=
  | AUTH_START
  | AUTH_SUCCESS (access_token user : JsVal)
  | AUTH_ERROR (payload : JsVal)
  | AUTH_LOGOUT
  | CLEAR_ERROR.

Definition authReducer (state : AuthState) (action : AuthAction) : AuthState :=
  match action with
  | AUTH_START =>
      {| user := user state; token := token state;
         isAuthenticated := isAuthenticated state;
         isLoading := true;
         error := JNull |}
  | AUTH_SUCCESS access_token payloadUser =>
      {| isLoading := false;
         isAuthenticated := true;
         user := payloadUser;
         token := access_token;
         error := JNull |}
  | AUTH_ERROR payload =>
      {| isLoading := false;
         isAuthenticated := false;
         user := JNull;
         token := JNull;
         error := payload |}
  | AUTH_LOGOUT =>
      {| isLoading := isLoading state;
         isAuthenticated := false;
         user := JNull;
         token := JNull;
         error := JNull |}
  | CLEAR_ERROR =>
      {| user := user state; token := token state;
         isAuthenticated := isAuthenticated state;
         isLoading := isLoading state;
         error := JNull |}
  end.

Definition initialState : AuthState := {|
  user := JNull;
  token := JNull;
  isAuthenticated := false;
  isLoading := false;
  error := JNull
|}.

Definition dispatchAll (actions : list AuthAction) : AuthState :=
  fold_left authReducer actions initialState.

(** [v != null]. *)
Definition nonNull (v : JsVal) : bool :=
  match v with
  | JNull | JUndefined => false
  | _ => true
  end.

(** [isAuthenticated] is true exactly when both [user] and [token] are
    non-null. *)
Definition consistent (s : AuthState) : Prop :=
  isAuthenticated s = true <-> (nonNull (user s) = true /\ nonNull (token s) = true).

(** Does the action, if it is an [AUTH_SUCCESS], carry a user and a
    token? *)
Definition carriesCredentials (a : AuthAction) : bool :=
  match a with
  | AUTH_SUCCESS access_token payloadUser => nonNull access_token && nonNull payloadUser
  | _ => true
  end.

(** A user record as a run-time object. *)
Definition userValue (u : User) : JsVal :=
  JObj (("id", JNum (user_id u)) :: ("email", JStr (user_email u))
        :: match user_name u with
           | Some name => [("name", JStr name)]
           | None => []
           end).

Definition nullable {A : Type} (f : A -> JsVal) (x : option A) : JsVal :=
  match x with
  | Some a => f a
  | None => JNull
  end.

(** The typed state and the typed actions of [Auth], as run-time values. *)
Definition ofTypedState (s : Auth.AuthState) : AuthState :=
  {| user := nullable userValue (Auth.user s);
     token := nullable JStr (Auth.token s);
     isAuthenticated := Auth.isAuthenticated s;
     isLoading := Auth.isLoading s;
     error := nullable JStr (Auth.error s) |}.

Definition ofTypedAction (a : Auth.AuthAction) : AuthAction :=
  match a with
  | Auth.AUTH_START => AUTH_START
  | Auth.AUTH_SUCCESS payload =>
      AUTH_SUCCESS (JStr (Types.access_token payload)) (userValue (resp_user payload))
  | Auth.AUTH_ERROR payload => AUTH_ERROR (JStr payload)
  | Auth.AUTH_LOGOUT => AUTH_LOGOUT
  | Auth.CLEAR_ERROR => CLEAR_ERROR
  end.

(** The provider's mount effect over run-time values: [parse] is
    [JSON.parse], [None] when it throws.  The state after the effect and
    the storage it leaves. *)
Definition initEffect (parse : string -> option JsVal)
    (state : AuthState) (store : gmap string string)
  : AuthState * gmap string string :=
  match store !! "access_token", store !! "user" with
  | Some tok, Some userStr =>
      if (tok =? "")%string || (userStr =? "")%string then (state, store)
      else
        match parse userStr with
        | Some parsedUser =>
            (authReducer state (AUTH_SUCCESS (JStr tok) parsedUser), store)
        | None => (state, delete "user" (delete "access_token" store))
        end
  | _, _ => (state, store)
  end.

Definition pageLoad (parse : string -> option JsVal) (store : gmap string string)
  : AuthState * gmap string string :=
  initEffect parse initialState store.

End AuthRuntime.

(* ===================================================================== *)
(** ** Sample data *)
(* ===================================================================== *)

Module Samples.
Import Js Types Chat.

Definition sampleSession : ChatSession :=
  {| sess_id := "s1"; sess_title := None;
     sess_createdAt := 0; sess_updatedAt := 0;
     sess_messages := None |}.

(** An open session with one message and the narrative of the previous
    answer still on screen. *)
Definition busyState : State :=
  {| sessions := [sampleSession];
     currentSession := Some sampleSession;
     messages := [ {| msg_id := "7"; msg_role := RoleAssistant;
                      msg_content := "hello"; msg_createdAt := 7;
                      msg_contextPassages := None |} ];
     isLoading := false; isSending := false; error := Some "old";
     sidebarOpen := true;
     pipelineSteps := [ {| step_type := "ai_done"; step_ts := JNum 5;
                           step_info := [] |} ];
     statusMessages := ["Answer ready."];
     streaming := false;
     timers := [3005] |}.

Definition replyMessage : ChatMessage :=
  {| msg_id := "r"; msg_role := RoleAssistant; msg_content := "answer";
     msg_createdAt := 20; msg_contextPassages := None |}.

Definition sampleConfig : Socket.Config :=
  {| Socket.SOCKET_URL := "http://localhost:3000"; Socket.SOCKET_PATH := "/ws" |}.

Definition otherSession : ChatSession :=
  {| sess_id := "s2"; sess_title := Some "Markets"; 
     sess_createdAt := 1; sess_updatedAt := 1;
     sess_messages := Some [replyMessage] |}.

(** A remote end that lists two sessions, returns each by its id and
    accepts every change. *)
Definition sampleApi : Sessions.ChatApi :=
  {| Sessions.api_getSessions := Sessions.Resolves [sampleSession; otherSession];
     Sessions.api_getSession :=
       fun sessionId =>
         if (sessionId =? "s2")%string
         then Sessions.Resolves otherSession
         else Sessions.Resolves sampleSession;
     Sessions.api_createSession :=
       fun title =>
         Sessions.Resolves {| sess_id := "s3"; sess_title := title;
                              sess_createdAt := 2; sess_updatedAt := 2;
                              sess_messages := None |};
     Sessions.api_deleteSession := fun _ => Sessions.Resolves tt;
     Sessions.api_clearSession := fun _ => Sessions.Resolves tt |}.

(** A remote end that rejects every call. *)
Definition deadApi : Sessions.ChatApi :=
  {| Sessions.api_getSessions := Sessions.Rejects;
     Sessions.api_getSession := fun _ => Sessions.Rejects;
     Sessions.api_createSession := fun _ => Sessions.Rejects;
     Sessions.api_deleteSession := fun _ => Sessions.Rejects;
     Sessions.api_clearSession := fun _ => Sessions.Rejects |}.

(** Two sessions listed, the first one open. *)
Definition twoSessions : State :=
  {| sessions := [sampleSession; otherSession];
     currentSession := Some sampleSession;
     messages := [replyMessage];
     isLoading := false; isSending := false; error := None;
     sidebarOpen := true;
     pipelineSteps := []; statusMessages := []; streaming := false;
     timers := [] |}.

Definition sampleUser : User :=
  {| user_id := 1; user_email := "a@b.c"; user_name := None |}.

Definition sampleResponse : AuthResponse :=
  {| access_token := "tok"; resp_user := sampleUser |}.

(** A stand-in for the JSON built-ins that knows one user. *)
Definition sampleJson : AuthProvider.Json :=
  {| AuthProvider.stringify := fun _ => "{user 1}";
     AuthProvider.parse :=
       fun text =>
         if (text =? "{user 1}")%string then AuthProvider.ParsedUser sampleUser
         else if (text =? "null")%string then AuthProvider.ParsedOther
         else AuthProvider.ParseThrows |}.

(** A browser that has never seen the app. *)
Definition freshWorld : AuthProvider.World :=
  {| AuthProvider.state := Auth.initialState;
     AuthProvider.storage := ∅;
     AuthProvider.redirect := None |}.

Definition doneUpload : FileUpload.UploadFile :=
  {| FileUpload.up_file := {| FileUpload.file_name := "old.pdf";
                             FileUpload.file_size := 10 |};
     FileUpload.up_id := "a1"; FileUpload.up_status := FileUpload.Success;
     FileUpload.up_progress := 100; FileUpload.up_error := None |}.

(** One finished upload and two files waiting. *)
Definition sampleUploads : list FileUpload.UploadFile :=
  FileUpload.handleFileSelect
    [({| FileUpload.file_name := "notes.txt"; FileUpload.file_size := 20 |}, "b2");
     ({| FileUpload.file_name := "page.html"; FileUpload.file_size := 30 |}, "c3")]
    [doneUpload].

(** A stand-in for [JSON.parse] that knows the text [null] and the text
    of the sample user, and throws on anything else. *)
Definition sampleParse (text : string) : option Js.JsVal :=
  if (text =? "null")%string then Some Js.JNull
  else if (text =? "{user 1}")%string then Some (AuthRuntime.userValue sampleUser)
  else None.

End Samples.

(* ===================================================================== *)
(** ** Properties of the pipeline narrator *)
(* ===================================================================== *)

Module NarratorFacts.
Import Js Types Chat.

(** Splits [handleEvent] into its eight branches (seven cases and the
    fall-through), substituting the event name in each. *)
Ltac by_event name :=
  unfold handleEvent;
  repeat match goal with
         | |- context [String.eqb name ?lit] =>
             destruct (String.eqb_spec name lit) as [->|?]
         end.

Lemma noAdjacentDup_nil : noAdjacentDup [].
Proof. intros i x y H; rewrite lookup_nil in H; discriminate. Qed.

Lemma appendLine_last_eq (prev : list string) (line : string) :
  last prev = Some line -> appendLine line prev = prev.
Proof.
  unfold appendLine; intros ->.
  now rewrite String.eqb_refl.
Qed.

Lemma appendLine_last_ne (prev : list string) (line : string) :
  last prev <> Some line -> appendLine line prev = prev ++ [line].
Proof.
  unfold appendLine; intros Hne.
  destruct (last prev) as [l|]; [|reflexivity].
  destruct (String.eqb_spec l line) as [->|]; [congruence|reflexivity].
Qed.

Lemma appendLine_nil (line : string) : appendLine line [] = [line].
Proof. reflexivity. Qed.

Lemma noAdjacentDup_snoc (prev : list string) (line : string) :
  noAdjacentDup prev -> last prev <> Some line -> noAdjacentDup (prev ++ [line]).
Proof.
  intros Hprev Hlast i x y Hx Hy.
  destruct (decide (S i < length prev)%nat) as [Hlt|Hge].
  - rewrite lookup_app_l in Hx by lia.
    rewrite lookup_app_l in Hy by lia.
    eauto.
  - assert (Hi : (S i = length prev)%nat).
    { apply lookup_lt_Some in Hy. rewrite length_app in Hy. simpl in Hy. lia. }
    rewrite lookup_app_l in Hx by lia.
    rewrite lookup_app_r in Hy by lia.
    replace (S i - length prev)%nat with 0%nat in Hy by lia.
    simpl in Hy. injection Hy as <-.
    intros ->. apply Hlast.
    rewrite last_lookup. rewrite <- Hi. simpl. exact Hx.
Qed.

Lemma appendLine_noAdjacentDup (prev : list string) (line : string) :
  noAdjacentDup prev -> noAdjacentDup (appendLine line prev).
Proof.
  intros Hprev.
  destruct (decide (last prev = Some line)) as [He|Hne].
  - now rewrite appendLine_last_eq.
  - rewrite appendLine_last_ne by assumption.
    now apply noAdjacentDup_snoc.
Qed.

Lemma handleEvent_noAdjacentDup (name : string) (now : Z) (p : Payload) (s : State) :
  noAdjacentDup (statusMessages s) ->
  noAdjacentDup (statusMessages (handleEvent name now p s)).
Proof.
  intros H. by_event name; simpl; auto using appendLine_noAdjacentDup.
Qed.

Lemma fireTimer_noAdjacentDup (due : Z) (s : State) :
  noAdjacentDup (statusMessages s) ->
  noAdjacentDup (statusMessages (fireTimer due s)).
Proof.
  intros H. unfold fireTimer.
  destruct (existsb (Z.eqb due) (timers s)); simpl; auto using noAdjacentDup_nil.
Qed.

Lemma step_noAdjacentDup (i : Input) (s : State) :
  noAdjacentDup (statusMessages s) ->
  noAdjacentDup (statusMessages (step i s)).
Proof.
  destruct i as [name now p|due]; unfold step.
  - destruct (existsb (String.eqb name) pipelineEvents);
      auto using handleEvent_noAdjacentDup.
  - apply fireTimer_noAdjacentDup.
Qed.

Lemma run_noAdjacentDup (inputs : list Input) (s : State) :
  noAdjacentDup (statusMessages s) ->
  noAdjacentDup (statusMessages (run inputs s)).
Proof.
  revert s. induction inputs as [|i inputs IH]; intros s H; simpl.
  - exact H.
  - apply IH, step_noAdjacentDup, H.
Qed.

Lemma run_app (xs ys : list Input) (s : State) :
  run (xs ++ ys) s = run ys (run xs s).
Proof. unfold run. apply fold_left_app. Qed.

(** C1. Whatever the event loop delivers to a narrator whose status list
    is empty (pipeline events of the seven kinds in any order and number,
    and status-clear timers coming due), the status list never holds two
    adjacent identical strings.  Appending a line equal to the last line
    leaves the list as it is.  Equal lines that are not neighbours can both
    be present: the list after [embedding_start], [embedding_done],
    [embedding_start] holds the first line twice. *)
Theorem status_never_repeats_adjacent :
  (forall (s : State) (inputs : list Input),
      statusMessages s = [] ->
      noAdjacentDup (statusMessages (run inputs s)))
  /\ (forall (prev : list string) (line : string),
        appendLine line (prev ++ [line]) = prev ++ [line])
  /\ statusMessages
       (run [SocketEvent "embedding_start" 0 [];
             SocketEvent "embedding_done" 1 [];
             SocketEvent "embedding_start" 2 []] initialState)
     = ["Analyzing your question (building semantic vector)...";
        "Understanding captured. Searching knowledge base for matches...";
        "Analyzing your question (building semantic vector)..."].
Proof.
  split; [|split].
  - intros s inputs Hs. apply run_noAdjacentDup.
    rewrite Hs. apply noAdjacentDup_nil.
  - intros prev line. apply appendLine_last_eq, last_snoc.
  - reflexivity.
Qed.

Lemma status_never_repeats_adjacent_witness :
  noAdjacentDup
    (statusMessages
       (run [SocketEvent "ai_start" 5 []; SocketEvent "ai_start" 6 [];
             SocketEvent "ai_done" 7 []; TimerFired 3007;
             SocketEvent "search_start" 8 []] initialState)).
Proof.
  apply (proj1 status_never_repeats_adjacent initialState).
  reflexivity.
Defined.

(** C2. [ai_start] sets the streaming flag, [ai_done] clears it, whatever
    the flag and the status list were before; every other event name leaves
    the flag as it was. *)
Theorem streaming_follows_ai_events (now : Z) (p : Payload) (s : State) :
  streaming (handleEvent "ai_start" now p s) = true
  /\ streaming (handleEvent "ai_done" now p s) = false
  /\ (forall name : string,
        streaming (handleEvent name now p s) =
          if (name =? "ai_start")%string then true
          else if (name =? "ai_done")%string then false
          else streaming s).
Proof.
  split; [reflexivity|split; [reflexivity|]].
  intros name. by_event name; reflexivity.
Qed.

Lemma removeFirst_keeps (d d' : Z) (l : list Z) :
  d <> d' -> In d l -> In d (removeFirst d' l).
Proof.
  intros Hne. induction l as [|x l IH]; simpl; [tauto|].
  intros [->|Hin].
  - destruct (Z.eqb_spec d d'); [contradiction|]. now left.
  - destruct (Z.eqb_spec x d'); [assumption|]. right. auto.
Qed.

Lemma handleEvent_keeps_timer (d : Z) (name : string) (now : Z) (p : Payload) (s : State) :
  In d (timers s) -> In d (timers (handleEvent name now p s)).
Proof.
  intros H. by_event name; simpl; try assumption.
  apply in_or_app. now left.
Qed.

Lemma step_keeps_timer (d : Z) (i : Input) (s : State) :
  i <> TimerFired d -> In d (timers s) -> In d (timers (step i s)).
Proof.
  intros Hne Hin. destruct i as [name now p|due]; unfold step.
  - destruct (existsb (String.eqb name) pipelineEvents);
      auto using handleEvent_keeps_timer.
  - unfold fireTimer.
    destruct (existsb (Z.eqb due) (timers s)); simpl; [|assumption].
    apply removeFirst_keeps; [congruence|assumption].
Qed.

Lemma run_keeps_timer (d : Z) (inputs : list Input) (s : State) :
  Forall (fun i => i <> TimerFired d) inputs ->
  In d (timers s) -> In d (timers (run inputs s)).
Proof.
  intros Hall. revert s.
  induction Hall as [|i inputs Hi _ IH]; intros s Hin; simpl.
  - exact Hin.
  - apply IH, step_keeps_timer; assumption.
Qed.

Lemma fireTimer_clears (due : Z) (s : State) :
  In due (timers s) -> statusMessages (fireTimer due s) = [].
Proof.
  intros Hin. unfold fireTimer.
  assert (Hex : existsb (Z.eqb due) (timers s) = true).
  { apply existsb_exists. exists due. split; [assumption|apply Z.eqb_refl]. }
  now rewrite Hex.
Qed.

(** C4. Handling [ai_done] at time [now] leaves a status-clear timer due at
    [now + 3000].  Whatever else is delivered before that timer fires
    (events appending further lines, other timers), it is still pending,
    and when it fires the status list is empty: the callback of any
    pending timer replaces the list by the empty list. *)
Theorem status_empty_after_clear_delay
    (s : State) (now : Z) (p : Payload) (meantime : list Input) :
  Forall (fun i => i <> TimerFired (now + 3000)) meantime ->
  let pending := run meantime (handleEvent "ai_done" now p s) in
  In (now + 3000) (timers pending)
  /\ statusMessages (step (TimerFired (now + 3000)) pending) = []
  /\ (forall (s' : State) (due : Z),
        In due (timers s') -> statusMessages (fireTimer due s') = []).
Proof.
  intros Hall pending.
  assert (Hin : In (now + 3000) (timers pending)).
  { apply run_keeps_timer; [assumption|].
    simpl. apply in_or_app. right. now left. }
  split; [exact Hin|split].
  - simpl. now apply fireTimer_clears.
  - intros s' due. apply fireTimer_clears.
Qed.

Lemma status_empty_after_clear_delay_witness :
  statusMessages
    (step (TimerFired 3100)
       (run [SocketEvent "embedding_start" 200 []; TimerFired 2900;
             SocketEvent "search_start" 300 []]
          (handleEvent "ai_done" 100 [] initialState))) = [].
Proof.
  refine (proj1 (proj2 (status_empty_after_clear_delay initialState 100 []
           [SocketEvent "embedding_start" 200 []; TimerFired 2900;
            SocketEvent "search_start" 300 []] _))).
  repeat constructor; discriminate.
Defined.

Lemma appendLine_inj (l1 l2 : string) :
  appendLine l1 [] = appendLine l2 [] -> l1 = l2.
Proof. cbv [appendLine last]. intros H. now injection H. Qed.

Lemma isOne_JNum (n : Z) : isOne (JNum n) = (n =? 1)%Z.
Proof. destruct n as [|[q|q|]|q]; reflexivity. Qed.

(** C5. Each of the seven event names has exactly one status line, which
    [handleEvent] hands to [appendStatus]; it does not depend on the state
    or the clock.  Five of the lines are constants.  The [search_results]
    line is "Found N candidate passage(s). Refining context..." and the
    [rag_context] line is "Selected top N passage(s) to ground the
    answer.", where N is the decimal numeral of the count and the "s" is
    left out exactly when the count is the number 1; a count that is a
    string is printed as it is, with the "s".  The [search_results] count
    is the length of the [results] array, or [resultCount] when [results]
    is missing, null or empty, or 0 when that is missing, null or 0 too.
    The [rag_context] count is the length of the [passages] array, and 0
    when [passages] is missing, null, a number or a boolean.  (Counts are
    taken within the safe integers.) *)
Theorem each_event_has_one_status_line (now : Z) (p : Payload) :
  (forall name : string, In name pipelineEvents ->
     exists! line : string, forall s : State,
       statusMessages (handleEvent name now p s)
       = appendLine line (statusMessages s))
  /\ (forall s : State,
        statusMessages (handleEvent "embedding_start" now p s)
        = appendLine "Analyzing your question (building semantic vector)..."
            (statusMessages s))
  /\ (forall s : State,
        statusMessages (handleEvent "embedding_done" now p s)
        = appendLine "Understanding captured. Searching knowledge base for matches..."
            (statusMessages s))
  /\ (forall s : State,
        statusMessages (handleEvent "search_start" now p s)
        = appendLine "Scanning indexed content for relevant chunks..."
            (statusMessages s))
  /\ (forall s : State,
        statusMessages (handleEvent "ai_start" now p s)
        = appendLine "Generating answer grounded in retrieved context..."
            (statusMessages s))
  /\ (forall s : State,
        statusMessages (handleEvent "ai_done" now p s)
        = appendLine "Answer ready." (statusMessages s))
  /\ (forall (n : Z) (s : State),
        searchCount p = JNum n -> isSafeInteger n = true ->
        statusMessages (handleEvent "search_results" now p s)
        = appendLine
            ("Found " +:+ pretty n +:+ " candidate passage"
               +:+ (if (n =? 1)%Z then "" else "s") +:+ ". Refining context...")
            (statusMessages s))
  /\ (forall (text : string) (s : State),
        searchCount p = JStr text ->
        statusMessages (handleEvent "search_results" now p s)
        = appendLine
            ("Found " +:+ text +:+ " candidate passages. Refining context...")
            (statusMessages s))
  /\ (forall (n : Z) (s : State),
        contextCount p = JNum n -> isSafeInteger n = true ->
        statusMessages (handleEvent "rag_context" now p s)
        = appendLine
            ("Selected top " +:+ pretty n +:+ " passage"
               +:+ (if (n =? 1)%Z then "" else "s") +:+ " to ground the answer.")
            (statusMessages s))
  /\ (forall items : list JsVal,
        getField "results" p = JArr items -> items <> [] ->
        searchCount p = JNum (Z.of_nat (length items)))
  /\ (getField "results" p = JUndefined \/ getField "results" p = JNull
      \/ getField "results" p = JArr [] ->
      (forall k : Z,
          getField "resultCount" p = JNum k -> k <> 0 -> searchCount p = JNum k)
      /\ (forall text : string,
            getField "resultCount" p = JStr text -> text <> "" ->
            searchCount p = JStr text)
      /\ (getField "resultCount" p = JUndefined \/ getField "resultCount" p = JNull
          \/ getField "resultCount" p = JNum 0 ->
          searchCount p = JNum 0))
  /\ (forall items : list JsVal,
        getField "passages" p = JArr items ->
        contextCount p = JNum (Z.of_nat (length items)))
  /\ ((getField "passages" p = JUndefined \/ getField "passages" p = JNull
       \/ (exists k : Z, getField "passages" p = JNum k)
       \/ (exists b : bool, getField "passages" p = JBool b)) ->
      contextCount p = JNum 0).
Proof.
  split.
  { intros name Hin.
    assert (Hex : exists line : string, forall s : State,
               statusMessages (handleEvent name now p s)
               = appendLine line (statusMessages s)).
    { simpl in Hin.
      destruct Hin as [<-|[<-|[<-|[<-|[<-|[<-|[<-|[]]]]]]]];
        eexists; intros s; reflexivity. }
    destruct Hex as [line Hline]. exists line. split; [exact Hline|].
    intros line' Hline'. apply appendLine_inj.
    specialize (Hline initialState). specialize (Hline' initialState).
    simpl statusMessages in Hline, Hline' at 2. congruence. }
  do 5 (split; [intros; reflexivity|]).
  split.
  { intros n s Hcnt _. simpl. unfold searchLine.
    now rewrite Hcnt, isOne_JNum. }
  split.
  { intros text s Hcnt. simpl. unfold searchLine. now rewrite Hcnt. }
  split.
  { intros n s Hcnt _. simpl. unfold contextLine.
    now rewrite Hcnt, isOne_JNum. }
  split.
  { intros items Hr Hne. unfold searchCount. rewrite Hr. simpl.
    destruct items as [|x items]; [contradiction|]. reflexivity. }
  split.
  { intros Hr.
    assert (Hfall : searchCount p = Js.or (getField "resultCount" p) (JNum 0)).
    { unfold searchCount. destruct Hr as [Hr|[Hr|Hr]]; rewrite Hr; reflexivity. }
    rewrite Hfall. split; [|split].
    - intros k -> Hk. unfold Js.or. simpl.
      destruct (Z.eqb_spec k 0); [contradiction|reflexivity].
    - intros text -> Ht. unfold Js.or. simpl.
      destruct (String.eqb_spec text ""); [contradiction|reflexivity].
    - intros [->|[->| ->]]; reflexivity. }
  split.
  { intros items Hp. unfold contextCount. rewrite Hp. simpl.
    destruct items; reflexivity. }
  intros [Hp|[Hp|[[k Hp]|[b Hp]]]]; unfold contextCount; rewrite Hp; reflexivity.
Qed.

Lemma each_event_has_one_status_line_witness :
  statusMessages
    (handleEvent "search_results" 0
       [("results", JArr [JStr "a"; JStr "b"; JStr "c"])] initialState)
  = ["Found 3 candidate passages. Refining context..."]
  /\ statusMessages
       (handleEvent "search_results" 0
          [("results", JArr []); ("resultCount", JNum 1)] initialState)
     = ["Found 1 candidate passage. Refining context..."]
  /\ statusMessages
       (handleEvent "rag_context" 0 [("passages", JArr [JStr "a"])] initialState)
     = ["Selected top 1 passage to ground the answer."]
  /\ statusMessages
       (handleEvent "rag_context" 0 [("passages", JNum 3)] initialState)
     = ["Selected top 0 passages to ground the answer."].
Proof.
  split; [|split; [|split]].
  - destruct (each_event_has_one_status_line 0
                [("results", JArr [JStr "a"; JStr "b"; JStr "c"])])
      as (_ & _ & _ & _ & _ & _ & Hline & _ & _ & Hlen & _).
    rewrite (Hline 3 initialState).
    + reflexivity.
    + apply (Hlen [JStr "a"; JStr "b"; JStr "c"]); [reflexivity|discriminate].
    + reflexivity.
  - destruct (each_event_has_one_status_line 0
                [("results", JArr []); ("resultCount", JNum 1)])
      as (_ & _ & _ & _ & _ & _ & Hline & _ & _ & _ & Hfall & _).
    rewrite (Hline 1 initialState).
    + reflexivity.
    + apply (proj1 (Hfall (or_intror (or_intror eq_refl)))); [reflexivity|discriminate].
    + reflexivity.
  - destruct (each_event_has_one_status_line 0 [("passages", JArr [JStr "a"])])
      as (_ & _ & _ & _ & _ & _ & _ & _ & Hline & _ & _ & Hlen & _).
    rewrite (Hline 1 initialState).
    + reflexivity.
    + apply (Hlen [JStr "a"]). reflexivity.
    + reflexivity.
  - destruct (each_event_has_one_status_line 0 [("passages", JNum 3)])
      as (_ & _ & _ & _ & _ & _ & _ & _ & Hline & _ & _ & _ & Hnum).
    rewrite (Hline 0 initialState).
    + reflexivity.
    + apply Hnum. right. right. left. exists 3. reflexivity.
    + reflexivity.
Defined.

(** C6. When the count of a [search_results] payload is the number 1 the
    line handed to [appendStatus] is "Found 1 candidate passage. Refining
    context..."; when it is 2 the line is "Found 2 candidate passages.
    Refining context...". *)
Theorem search_results_singular_and_plural (now : Z) (p : Payload) (s : State) :
  (searchCount p = JNum 1 ->
   statusMessages (handleEvent "search_results" now p s)
   = appendLine "Found 1 candidate passage. Refining context..." (statusMessages s))
  /\ (searchCount p = JNum 2 ->
      statusMessages (handleEvent "search_results" now p s)
      = appendLine "Found 2 candidate passages. Refining context..." (statusMessages s)).
Proof.
  split; intros Hcnt; simpl; rewrite Hcnt; reflexivity.
Qed.

Lemma search_results_singular_and_plural_witness :
  statusMessages
    (handleEvent "search_results" 0 [("results", JArr [JStr "a"])] initialState)
  = ["Found 1 candidate passage. Refining context..."]
  /\ statusMessages
       (handleEvent "search_results" 0 [("resultCount", JNum 2)] initialState)
     = ["Found 2 candidate passages. Refining context..."].
Proof.
  split.
  - apply (proj1 (search_results_singular_and_plural 0
                    [("results", JArr [JStr "a"])] initialState)).
    reflexivity.
  - apply (proj2 (search_results_singular_and_plural 0
                    [("resultCount", JNum 2)] initialState)).
    reflexivity.
Defined.

End NarratorFacts.

(* ===================================================================== *)
(** ** Properties of sendMessage *)
(* ===================================================================== *)

Module SendFacts.
Import Js Types Chat Samples.

Lemma handleEvent_messages (name : string) (now : Z) (p : Payload) (s : State) :
  messages (handleEvent name now p s) = messages s.
Proof. NarratorFacts.by_event name; reflexivity. Qed.

Lemma step_messages (i : Input) (s : State) :
  messages (step i s) = messages s.
Proof.
  destruct i as [name now p|due]; unfold step.
  - destruct (existsb (String.eqb name) pipelineEvents);
      auto using handleEvent_messages.
  - unfold fireTimer. now destruct (existsb (Z.eqb due) (timers s)).
Qed.

Lemma run_messages (inputs : list Input) (s : State) :
  messages (run inputs s) = messages s.
Proof.
  revert s. induction inputs as [|i inputs IH]; intros s; simpl.
  - reflexivity.
  - now rewrite IH, step_messages.
Qed.


Lemma sendMessage_begin_Some (tId tCreated : Z) (content : string)
    (s : State) (cs : ChatSession) :
  currentSession s = Some cs -> trim content <> "" ->
  exists s1 : State,
    sendMessage_begin tId tCreated content s
    = Some (s1, newUserMessage tId tCreated content,
            {| req_message := trim content; req_sessionId := sess_id cs |})
    /\ messages s1 = messages s ++ [newUserMessage tId tCreated content]
    /\ statusMessages s1 = []
    /\ pipelineSteps s1 = [].
Proof.
  intros Hcs Hne. unfold sendMessage_begin. rewrite Hcs.
  destruct (String.eqb_spec (trim content) ""); [contradiction|].
  eexists. split; [reflexivity|]. repeat split.
Qed.

(** C3. With a current session and non-blank content, [sendMessage] has
    emptied both the status list and the pipeline-step log by the time it
    issues the request: every event of the new cycle is handled in a state
    reached from that one, so the first of them appends to the empty
    list. *)
Theorem send_resets_narrative_before_request
    (tId tCreated : Z) (content : string) (api : Api) (s : State) (cs : ChatSession) :
  currentSession s = Some cs -> trim content <> "" ->
  exists (s1 : State) (userMessage : ChatMessage) (request : SendMessageRequest),
    sendMessage_begin tId tCreated content s = Some (s1, userMessage, request)
    /\ statusMessages s1 = []
    /\ pipelineSteps s1 = []
    /\ sendMessage tId tCreated content api s
       = sendMessage_settle userMessage (snd (api request))
           (run (fst (api request)) s1)
    /\ (forall (name : string) (now : Z) (p : Payload),
          In name pipelineEvents ->
          length (statusMessages (handleEvent name now p s1)) = 1%nat
          /\ length (pipelineSteps (handleEvent name now p s1)) = 1%nat).
Proof.
  intros Hcs Hne.
  destruct (sendMessage_begin_Some tId tCreated content s cs Hcs Hne)
    as (s1 & Hbegin & _ & Hstatus & Hsteps).
  exists s1. do 2 eexists. split; [exact Hbegin|].
  split; [exact Hstatus|]. split; [exact Hsteps|]. split.
  - unfold sendMessage. rewrite Hbegin.
    now destruct (api _) as [during outcome].
  - intros name now p Hin. simpl in Hin.
    destruct Hin as [<-|[<-|[<-|[<-|[<-|[<-|[<-|[]]]]]]]];
      simpl; rewrite Hstatus, Hsteps; split; reflexivity.
Qed.

Lemma send_resets_narrative_before_request_witness :
  exists (s1 : State) (userMessage : ChatMessage) (request : SendMessageRequest),
    sendMessage_begin 10 11 " what is new? " busyState
    = Some (s1, userMessage, request)
    /\ statusMessages s1 = []
    /\ pipelineSteps s1 = [].
Proof.
  destruct (send_resets_narrative_before_request 10 11 " what is new? "
              (fun _ => ([], Rejected)) busyState
              sampleSession)
    as (s1 & um & req & Hb & Hs & Hp & _).
  - reflexivity.
  - vm_compute. discriminate.
  - exists s1, um, req. repeat split; assumption.
Defined.

End SendFacts.

(* ===================================================================== *)
(** ** Properties of the auth reducer *)
(* ===================================================================== *)

Module AuthFacts.
Import Types Auth.

Lemma initialState_signedInOrOut : signedInOrOut initialState.
Proof. right. repeat split. Qed.

Lemma authReducer_signedInOrOut (s : AuthState) (a : AuthAction) :
  signedInOrOut s -> signedInOrOut (authReducer s a).
Proof.
  intros Hs. destruct a as [|payload|payload| |]; simpl.
  - exact Hs.
  - left. repeat split; discriminate.
  - right. repeat split.
  - right. repeat split.
  - exact Hs.
Qed.

Lemma fold_authReducer_signedInOrOut (actions : list AuthAction) (s : AuthState) :
  signedInOrOut s -> signedInOrOut (fold_left authReducer actions s).
Proof.
  revert s. induction actions as [|a actions IH]; intros s Hs; simpl.
  - exact Hs.
  - apply IH, authReducer_signedInOrOut, Hs.
Qed.

Lemma signedInOrOut_consistent (s : AuthState) :
  signedInOrOut s -> consistent s.
Proof.
  intros [(Ha & Hu & Ht)|(Ha & Hu & Ht)]; split.
  - intros _. now split.
  - intros _. exact Ha.
  - rewrite Ha. discriminate.
  - intros [Hu' _]. contradiction.
Qed.

Lemma signedInOrOut_signed_out (s : AuthState) :
  signedInOrOut s -> isAuthenticated s = false -> user s = None /\ token s = None.
Proof.
  intros [(Ha & _ & _)|(_ & Hu & Ht)] Hf.
  - rewrite Ha in Hf. discriminate.
  - now split.
Qed.

End AuthFacts.

(* ===================================================================== *)
(** ** Properties of the auth reducer over run-time values *)
(* ===================================================================== *)

Module AuthRuntimeFacts.
Import Js Types AuthRuntime.

(** On well-typed states and actions the run-time reducer is the typed
    one. *)
Lemma authReducer_typed (s : Auth.AuthState) (a : Auth.AuthAction) :
  authReducer (ofTypedState s) (ofTypedAction a)
  = ofTypedState (Auth.authReducer s a).
Proof. destruct a; reflexivity. Qed.

Lemma authReducer_signed_out_clean (s : AuthState) (a : AuthAction) :
  (isAuthenticated s = false -> user s = JNull /\ token s = JNull) ->
  isAuthenticated (authReducer s a) = false ->
  user (authReducer s a) = JNull /\ token (authReducer s a) = JNull.
Proof.
  intros H. destruct a; simpl; auto; discriminate.
Qed.

Lemma authReducer_signed_in_holds (s : AuthState) (a : AuthAction) :
  carriesCredentials a = true ->
  (isAuthenticated s = true -> nonNull (user s) = true /\ nonNull (token s) = true) ->
  isAuthenticated (authReducer s a) = true ->
  nonNull (user (authReducer s a)) = true /\ nonNull (token (authReducer s a)) = true.
Proof.
  intros Hc H. destruct a; simpl in *; auto; try discriminate.
  apply andb_prop in Hc as [Ht Hu]. auto.
Qed.

Lemma fold_signed_out_clean (actions : list AuthAction) (s : AuthState) :
  (isAuthenticated s = false -> user s = JNull /\ token s = JNull) ->
  isAuthenticated (fold_left authReducer actions s) = false ->
  user (fold_left authReducer actions s) = JNull
  /\ token (fold_left authReducer actions s) = JNull.
Proof.
  revert s. induction actions as [|a actions IH]; intros s H; [exact H|].
  simpl. apply IH. now apply authReducer_signed_out_clean.
Qed.

Lemma fold_signed_in_holds (actions : list AuthAction) (s : AuthState) :
  forallb carriesCredentials actions = true ->
  (isAuthenticated s = true -> nonNull (user s) = true /\ nonNull (token s) = true) ->
  isAuthenticated (fold_left authReducer actions s) = true ->
  nonNull (user (fold_left authReducer actions s)) = true
  /\ nonNull (token (fold_left authReducer actions s)) = true.
Proof.
  revert s. induction actions as [|a actions IH]; intros s Hall H; [exact H|].
  simpl in Hall. apply andb_prop in Hall as [Ha Hall].
  simpl. apply IH; [exact Hall|]. now apply authReducer_signed_in_holds.
Qed.

(** C9. In every state the reducer reaches from the initial state, by
    any actions with any payloads: when [isAuthenticated] is false,
    [user] and [token] are both null; and when [user] and [token] are
    both non-null, [isAuthenticated] is true.  When every [AUTH_SUCCESS]
    dispatched carried a non-null user and a non-null token,
    [isAuthenticated] is true exactly when [user] and [token] are both
    non-null. *)
Theorem auth_flag_matches_credentials_carried (actions : list AuthAction) :
  let s := dispatchAll actions in
  (isAuthenticated s = false -> user s = JNull /\ token s = JNull)
  /\ (nonNull (user s) = true -> nonNull (token s) = true ->
      isAuthenticated s = true)
  /\ (forallb carriesCredentials actions = true -> consistent s).
Proof.
  intros s.
  assert (Hout : isAuthenticated s = false -> user s = JNull /\ token s = JNull).
  { apply fold_signed_out_clean. auto. }
  split; [exact Hout|]. split.
  - intros Hu Ht. destruct (isAuthenticated s) eqn:Ha; [reflexivity|].
    destruct (Hout eq_refl) as [Hnull _]. rewrite Hnull in Hu. discriminate.
  - intros Hall. split.
    + apply fold_signed_in_holds; [exact Hall|]. discriminate.
    + intros [Hu Ht]. destruct (isAuthenticated s) eqn:Ha; [reflexivity|].
      destruct (Hout eq_refl) as [Hnull _]. rewrite Hnull in Hu. discriminate.
Qed.

Lemma auth_flag_matches_credentials_carried_witness :
  consistent
    (dispatchAll
       [AUTH_START;
        AUTH_SUCCESS (JStr "tok") (userValue Samples.sampleUser);
        CLEAR_ERROR])
  /\ consistent
       (dispatchAll
          [AUTH_SUCCESS (JStr "tok") (userValue Samples.sampleUser);
           AUTH_START; AUTH_ERROR (JStr "no")]).
Proof.
  split.
  - apply (proj2 (proj2 (auth_flag_matches_credentials_carried
             [AUTH_START;
              AUTH_SUCCESS (JStr "tok") (userValue Samples.sampleUser);
              CLEAR_ERROR]))).
    reflexivity.
  - apply (proj2 (proj2 (auth_flag_matches_credentials_carried
             [AUTH_SUCCESS (JStr "tok") (userValue Samples.sampleUser);
              AUTH_START; AUTH_ERROR (JStr "no")]))).
    reflexivity.
Defined.

(** A page load over a storage whose user text is [null]: the mount
    effect dispatches the parsed value, and the reducer ends signed in
    with a null user. *)
Lemma stored_null_user_signs_in_without_user :
  fst (pageLoad Samples.sampleParse
         (<["user" := "null"]> (<["access_token" := "tok"]> ∅)))
  = dispatchAll [AUTH_SUCCESS (JStr "tok") JNull]
  /\ isAuthenticated (dispatchAll [AUTH_SUCCESS (JStr "tok") JNull]) = true
  /\ user (dispatchAll [AUTH_SUCCESS (JStr "tok") JNull]) = JNull
  /\ ~ consistent (dispatchAll [AUTH_SUCCESS (JStr "tok") JNull]).
Proof.
  split; [reflexivity|]. split; [reflexivity|]. split; [reflexivity|].
  intros [H _]. destruct (H eq_refl) as [Hu _]. discriminate.
Qed.

End AuthRuntimeFacts.

(* ===================================================================== *)
(** ** Properties of connectSocket *)
(* ===================================================================== *)

Module SocketFacts.
Import Socket Samples.

Lemma connectSocket_connected (config : Config) (t : option string)
    (w : World) (r : nat) :
  socket w = Some r -> isConnected w r -> connectSocket config t w = (w, r).
Proof.
  intros Hs (o & Ho & Hc). unfold connectSocket.
  now rewrite Hs, Ho, Hc.
Qed.

Lemma connectSocket_returns_current (config : Config) (t : option string) (w : World) :
  let '(w1, a) := connectSocket config t w in
  socket w1 = Some a /\ is_Some (objects w1 !! a).
Proof.
  unfold connectSocket, io.
  destruct (socket w) as [r|] eqn:Hs;
    [destruct (objects w !! r) as [o|] eqn:Ho; [destruct (connected o) eqn:Hc|]|];
    simpl; split; try reflexivity; try assumption;
    try (rewrite lookup_insert_eq; eauto).
  rewrite Ho. eauto.
Qed.

Lemma established_isConnected (w : World) (a : nat) :
  is_Some (objects w !! a) -> isConnected (established a w) a.
Proof.
  intros [o Ho]. exists (setConnected true o). split; [|reflexivity].
  simpl. now rewrite lookup_alter_eq, Ho.
Qed.

(** C10. While the module's socket is connected, [connectSocket] with any
    token returns that socket and changes nothing: no socket object is
    created, none is altered.  So a second call, made once the socket made
    by a first call is connected, returns the socket of the first call. *)
Theorem connectSocket_idempotent_while_connected (config : Config) :
  (forall (t : option string) (w : World) (r : nat),
      socket w = Some r -> isConnected w r ->
      connectSocket config t w = (w, r))
  /\ (forall (t1 t2 : option string) (w : World),
        let '(w1, a) := connectSocket config t1 w in
        connectSocket config t2 (established a w1) = (established a w1, a)).
Proof.
  split.
  - intros t w r. apply connectSocket_connected.
  - intros t1 t2 w.
    pose proof (connectSocket_returns_current config t1 w) as H.
    destruct (connectSocket config t1 w) as [w1 a].
    destruct H as [Hs Ho].
    apply connectSocket_connected; [exact Hs|].
    now apply established_isConnected.
Qed.

Lemma connectSocket_idempotent_while_connected_witness :
  let w := established 0 (fst (connectSocket sampleConfig (Some "t1") emptyWorld)) in
  connectSocket sampleConfig (Some "t2") w = (w, 0%nat).
Proof.
  refine (proj1 (connectSocket_idempotent_while_connected sampleConfig)
            (Some "t2") _ 0%nat _ _).
  - reflexivity.
  - eexists. split; reflexivity.
Defined.

End SocketFacts.

(* ===================================================================== *)
(** ** Properties of the session operations *)
(* ===================================================================== *)

Module SessionFacts.
Import Js Types Chat Sessions Samples.

(** What delivering an input never touches. *)
Lemma handleEvent_frame (name : string) (now : Z) (p : Payload) (s : State) :
  let s' := handleEvent name now p s in
  sessions s' = sessions s /\ currentSession s' = currentSession s
  /\ isLoading s' = isLoading s /\ isSending s' = isSending s
  /\ error s' = error s /\ sidebarOpen s' = sidebarOpen s.
Proof. NarratorFacts.by_event name; repeat split. Qed.

Lemma step_frame (i : Input) (s : State) :
  let s' := step i s in
  sessions s' = sessions s /\ currentSession s' = currentSession s
  /\ isLoading s' = isLoading s /\ isSending s' = isSending s
  /\ error s' = error s /\ sidebarOpen s' = sidebarOpen s.
Proof.
  destruct i as [name now p|due]; unfold step.
  - destruct (existsb (String.eqb name) pipelineEvents);
      [apply handleEvent_frame|repeat split].
  - unfold fireTimer.
    destruct (existsb (Z.eqb due) (timers s)); repeat split.
Qed.

Lemma run_frame (inputs : list Input) (s : State) :
  let s' := run inputs s in
  sessions s' = sessions s /\ currentSession s' = currentSession s
  /\ isLoading s' = isLoading s /\ isSending s' = isSending s
  /\ error s' = error s /\ sidebarOpen s' = sidebarOpen s.
Proof.
  revert s. induction inputs as [|i inputs IH]; intros s; simpl.
  - repeat split.
  - destruct (IH (step i s)) as (H1 & H2 & H3 & H4 & H5 & H6).
    destruct (step_frame i s) as (G1 & G2 & G3 & G4 & G5 & G6).
    simpl in *. unfold run in *.
    rewrite H1, H2, H3, H4, H5, H6. repeat split; assumption.
Qed.

Lemma sendMessage_cases (tId tCreated : Z) (content : string) (api : Chat.Api) (s : State) :
  sendMessage tId tCreated content api s = s
  \/ exists (s1 : State) (um : ChatMessage) (req : SendMessageRequest),
       sendMessage_begin tId tCreated content s = Some (s1, um, req)
       /\ currentSession s1 = currentSession s
       /\ isLoading s1 = isLoading s
       /\ is_Some (currentSession s)
       /\ sendMessage tId tCreated content api s
          = sendMessage_settle um (snd (api req)) (run (fst (api req)) s1).
Proof.
  unfold sendMessage.
  destruct (sendMessage_begin tId tCreated content s) as [[[s1 um] req]|] eqn:Hb;
    [right|now left].
  exists s1, um, req. split; [reflexivity|].
  unfold sendMessage_begin in Hb.
  destruct (currentSession s) as [cs|] eqn:Hcs; [|discriminate].
  destruct (trim content =? "")%string; [discriminate|].
  injection Hb as <- <- <-. simpl. rewrite Hcs.
  repeat split; eauto.
  now destruct (api _).
Qed.

Lemma sendMessage_settle_frame (um : ChatMessage) (o : ApiOutcome) (s : State) :
  let s' := sendMessage_settle um o s in
  currentSession s' = currentSession s /\ isLoading s' = isLoading s
  /\ isSending s' = false.
Proof. destruct o; repeat split. Qed.

Lemma loadSession_idle (api : ChatApi) (sessionId : string) (s : State) :
  isSending s = false -> idle (loadSession api sessionId s).
Proof.
  intros H. unfold loadSession, idle.
  destruct (api_getSession api sessionId); simpl; auto.
Qed.

Lemma perform_idle (a : Action) (s : State) : idle s -> idle (perform a s).
Proof.
  intros [Hl Hs]. destruct a; simpl.
  - unfold loadSessions, loadSessionsFrom.
    destruct (api_getSessions api) as [[|first rest]|]; simpl; try (split; auto; fail).
    unfold loadSession.
    destruct (api_getSession api (sess_id first)); simpl; split; auto.
  - now apply loadSession_idle.
  - unfold createNewSession. destruct (api_createSession api None); split; auto.
  - unfold deleteSession.
    destruct (api_deleteSession api sessionId); [|split; auto].
    destruct (isCurrent (currentSession s) sessionId); [|split; auto].
    destruct (List.filter (otherThan sessionId) (sessions s)); [split; auto|].
    now apply loadSession_idle.
  - unfold clearSession.
    destruct (api_clearSession api sessionId); [|split; auto].
    destruct (isCurrent (currentSession s) sessionId); split; auto.
  - destruct (sendMessage_cases tId tCreated content api s)
      as [->|(s1 & um & req & _ & _ & Hl1 & _ & ->)]; [split; auto|].
    destruct (sendMessage_settle_frame um (snd (api req)) (run (fst (api req)) s1))
      as (_ & Hl2 & Hs2).
    destruct (run_frame (fst (api req)) s1) as (_ & _ & Hl3 & _).
    split; [|exact Hs2]. simpl in *. congruence.
  - destruct (step_frame i s) as (_ & _ & Hl' & Hs' & _).
    split; simpl in *; congruence.
  - split; auto.
  - split; auto.
Qed.

Lemma performAll_invariant (P : State -> Prop) :
  (forall (a : Action) (s : State), P s -> P (perform a s)) ->
  forall (actions : list Action) (s : State), P s -> P (performAll actions s).
Proof.
  intros Hstep actions. induction actions as [|a actions IH]; intros s Hs; simpl.
  - exact Hs.
  - apply IH, Hstep, Hs.
Qed.

(** X1. After any history of complete operations on the view (loading,
    selecting, creating, deleting and clearing sessions, sending messages,
    socket events, timers), however the remote end answered each call,
    neither busy flag is left up: [isLoading] and [isSending] are both
    false. *)
Theorem busy_flags_down_after_every_operation (actions : list Action) :
  isLoading (performAll actions initialState) = false
  /\ isSending (performAll actions initialState) = false.
Proof.
  apply (performAll_invariant idle perform_idle). split; reflexivity.
Qed.





(** X3. When the call an operation rests on is rejected, the operation
    changes nothing the user reads off the view (session list, current
    session, messages) and leaves its own error text: this holds for
    [loadSession], [loadSessions], [createNewSession], [deleteSession]
    and [clearSession]. *)
Theorem rejected_session_calls_change_nothing (api : ChatApi) (s : State) :
  (forall sessionId : string,
      api_getSession api sessionId = Rejects ->
      sameData s (loadSession api sessionId s)
      /\ error (loadSession api sessionId s) = Some "Failed to load chat session")
  /\ (api_getSessions api = Rejects ->
      sameData s (loadSessions api s)
      /\ error (loadSessions api s) = Some "Failed to load chat sessions")
  /\ (forall title : option string,
        api_createSession api title = Rejects ->
        sameData s (createNewSession api title s)
        /\ error (createNewSession api title s) = Some "Failed to create new session")
  /\ (forall sessionId : string,
        api_deleteSession api sessionId = Rejects ->
        sameData s (deleteSession api sessionId s)
        /\ error (deleteSession api sessionId s) = Some "Failed to delete session")
  /\ (forall sessionId : string,
        api_clearSession api sessionId = Rejects ->
        sameData s (clearSession api sessionId s)
        /\ error (clearSession api sessionId s) = Some "Failed to clear session").
Proof.
  unfold sameData.
  split; [|split; [|split; [|split]]].
  - intros sessionId H. unfold loadSession. rewrite H. repeat split.
  - intros H. unfold loadSessions, loadSessionsFrom. rewrite H. repeat split.
  - intros title H. unfold createNewSession. rewrite H. repeat split.
  - intros sessionId H. unfold deleteSession. rewrite H. repeat split.
  - intros sessionId H. unfold clearSession. rewrite H. repeat split.
Qed.

Lemma rejected_session_calls_change_nothing_witness :
  sameData busyState (deleteSession deadApi "s1" busyState)
  /\ error (deleteSession deadApi "s1" busyState) = Some "Failed to delete session".
Proof.
  refine (proj1 (proj2 (proj2 (proj2
            (rejected_session_calls_change_nothing deadApi busyState)))) "s1" _).
  reflexivity.
Defined.

Lemma filter_otherThan_In (sessionId : string) (l : list ChatSession) (x : ChatSession) :
  In x (List.filter (otherThan sessionId) l) <-> In x l /\ sess_id x <> sessionId.
Proof.
  rewrite filter_In. unfold otherThan.
  destruct (String.eqb_spec (sess_id x) sessionId); simpl; intuition congruence.
Qed.

(** X4. When the delete call is fulfilled, [deleteSession] leaves exactly
    the sessions with another id in the list, in their order.  If the
    deleted session was not the current one, the current session and the
    messages stay.  If it was, the view switches to the first remaining
    session as the server returns it, and shows no session and no messages
    when none remains or that load is rejected. *)
Theorem deleteSession_fulfilled (api : ChatApi) (sessionId : string) (s : State) :
  api_deleteSession api sessionId = Resolves tt ->
  let s' := deleteSession api sessionId s in
  sessions s' = List.filter (otherThan sessionId) (sessions s)
  /\ (forall x : ChatSession,
        In x (sessions s') <-> In x (sessions s) /\ sess_id x <> sessionId)
  /\ (isCurrent (currentSession s) sessionId = false ->
      currentSession s' = currentSession s /\ messages s' = messages s)
  /\ (isCurrent (currentSession s) sessionId = true ->
      match sessions s' with
      | [] => currentSession s' = None /\ messages s' = []
      | first :: _ =>
          match api_getSession api (sess_id first) with
          | Resolves sessionData =>
              currentSession s' = Some sessionData
              /\ messages s' = messagesOrEmpty sessionData
          | Rejects =>
              currentSession s' = None /\ messages s' = []
              /\ error s' = Some "Failed to load chat session"
          end
      end).
Proof.
  intros Hdel s'.
  assert (Hs : sessions s' = List.filter (otherThan sessionId) (sessions s)).
  { subst s'. unfold deleteSession. rewrite Hdel.
    destruct (isCurrent (currentSession s) sessionId); [|reflexivity].
    destruct (List.filter (otherThan sessionId) (sessions s)) as [|first rest] eqn:Hf;
      simpl; [now rewrite Hf|].
    unfold loadSession.
    destruct (api_getSession api (sess_id first)); simpl; now rewrite Hf. }
  split; [exact Hs|]. split.
  { intros x. rewrite Hs. apply filter_otherThan_In. }
  split.
  - intros Hcur. subst s'. unfold deleteSession. rewrite Hdel, Hcur. split; reflexivity.
  - intros Hcur. rewrite Hs. subst s'. unfold deleteSession. rewrite Hdel, Hcur.
    destruct (List.filter (otherThan sessionId) (sessions s)) as [|first rest];
      [split; reflexivity|].
    unfold loadSession.
    destruct (api_getSession api (sess_id first)); simpl; repeat split.
Qed.

Lemma deleteSession_fulfilled_witness :
  sessions (deleteSession sampleApi "s1" twoSessions) = [otherSession]
  /\ currentSession (deleteSession sampleApi "s1" twoSessions) = Some otherSession.
Proof.
  pose proof (deleteSession_fulfilled sampleApi "s1" twoSessions eq_refl)
    as (Hs & _ & _ & Hcur).
  split; [exact Hs|].
  specialize (Hcur eq_refl). rewrite Hs in Hcur. exact (proj1 Hcur).
Defined.

(** X5. When the list call is fulfilled, [loadSessions] shows the
    returned list and, unless it is empty, goes on to load its first
    session, also when a session is open by then: the closure of the
    mount effect still holds no session.  If that load is fulfilled the
    first session replaces the open one, with its messages; if it is
    rejected the open session and its messages stay and the error is
    "Failed to load chat session".  An empty list opens nothing and
    changes neither the open session nor the messages. *)
Theorem loadSessions_fulfilled (api : ChatApi) (sessionsData : list ChatSession) (s : State) :
  api_getSessions api = Resolves sessionsData ->
  let s' := loadSessions api s in
  sessions s' = sessionsData
  /\ (sessionsData = [] ->
      currentSession s' = currentSession s /\ messages s' = messages s
      /\ error s' = error s)
  /\ (forall (first : ChatSession) (rest : list ChatSession),
        sessionsData = first :: rest ->
        match api_getSession api (sess_id first) with
        | Resolves sessionData =>
            currentSession s' = Some sessionData
            /\ messages s' = messagesOrEmpty sessionData
        | Rejects =>
            currentSession s' = currentSession s /\ messages s' = messages s
            /\ error s' = Some "Failed to load chat session"
        end).
Proof.
  intros Hget s'. subst s'. unfold loadSessions, loadSessionsFrom. rewrite Hget.
  split; [|split].
  - destruct sessionsData as [|first rest]; [reflexivity|].
    unfold loadSession. now destruct (api_getSession api (sess_id first)).
  - intros ->. repeat split.
  - intros first rest ->. unfold loadSession.
    destruct (api_getSession api (sess_id first)); repeat split.
Qed.

Lemma loadSessions_fulfilled_witness :
  currentSession (loadSessions sampleApi twoSessions) = Some sampleSession
  /\ messages (loadSessions sampleApi twoSessions) = []
  /\ currentSession
       (loadSessions sampleApi
          (createNewSession sampleApi None initialState)) = Some sampleSession.
Proof.
  split; [|split].
  - exact (proj1 (proj2 (proj2 (loadSessions_fulfilled sampleApi
              [sampleSession; otherSession] twoSessions eq_refl))
              sampleSession [otherSession] eq_refl)).
  - exact (proj2 (proj2 (proj2 (loadSessions_fulfilled sampleApi
              [sampleSession; otherSession] twoSessions eq_refl))
              sampleSession [otherSession] eq_refl)).
  - exact (proj1 (proj2 (proj2 (loadSessions_fulfilled sampleApi
              [sampleSession; otherSession]
              (createNewSession sampleApi None initialState) eq_refl))
              sampleSession [otherSession] eq_refl)).
Defined.

End SessionFacts.

(* ===================================================================== *)
(** ** sendMessage with the view in use while the call is awaited *)
(* ===================================================================== *)

Module InterleavedSendFacts.
Import Js Types Chat Sessions Samples.

Lemma performAll_deliver (inputs : list Input) (s : State) :
  performAll (map DoDeliver inputs) s = run inputs s.
Proof.
  revert s. induction inputs as [|i inputs IH]; intros s; simpl; [reflexivity|].
  apply IH.
Qed.

(** The send of [Chat.sendMessage] is the one of [sendMessageAmid] with
    nothing but deliveries in between. *)
Lemma sendMessage_is_amid (tId tCreated : Z) (content : string)
    (api : Chat.Api) (s : State) (cs : ChatSession) :
  currentSession s = Some cs ->
  sendMessage tId tCreated content api s
  = sendMessageAmid tId tCreated content
      (map DoDeliver
         (fst (api {| req_message := trim content; req_sessionId := sess_id cs |})))
      (snd (api {| req_message := trim content; req_sessionId := sess_id cs |})) s.
Proof.
  intros Hcs. unfold sendMessage, sendMessageAmid, sendMessage_begin. rewrite Hcs.
  destruct (trim content =? "")%string; [reflexivity|].
  rewrite performAll_deliver. now destruct (api _).
Qed.









End InterleavedSendFacts.

(* ===================================================================== *)
(** ** Properties of the event log, the timers and the status view *)
(* ===================================================================== *)

Module EventLogFacts.
Import Js Types Chat EventLog MessageList Samples.

Lemma handleEvent_pipelineSteps (name : string) (now : Z) (p : Payload) (s : State) :
  pipelineSteps (handleEvent name now p s)
  = pipelineSteps s ++ [ {| step_type := name;
                            step_ts := Js.or (getField "ts" p) (JNum now);
                            step_info := p |} ].
Proof. NarratorFacts.by_event name; reflexivity. Qed.

Lemma appendLine_length (line : string) (prev : list string) :
  (length (appendLine line prev) <= S (length prev))%nat.
Proof.
  unfold appendLine. destruct (last prev) as [l|].
  - destruct (l =? line)%string; [lia|]. rewrite length_app. simpl. lia.
  - rewrite length_app. simpl. lia.
Qed.

Lemma handleEvent_status_length (name : string) (now : Z) (p : Payload) (s : State) :
  (length (statusMessages (handleEvent name now p s))
   <= S (length (statusMessages s)))%nat.
Proof.
  NarratorFacts.by_event name; simpl;
    try apply appendLine_length; lia.
Qed.

Lemma step_log (i : Input) (s : State) :
  pipelineSteps (step i s)
  = pipelineSteps s ++ match stepOf i with Some e => [e] | None => [] end.
Proof.
  destruct i as [name now p|due]; unfold step, stepOf.
  - destruct (existsb (String.eqb name) pipelineEvents).
    + apply handleEvent_pipelineSteps.
    + now rewrite app_nil_r.
  - unfold fireTimer. rewrite app_nil_r.
    now destruct (existsb (Z.eqb due) (timers s)).
Qed.

Lemma step_status_length (i : Input) (s : State) :
  (length (statusMessages (step i s))
   <= length (statusMessages s)
      + length (match stepOf i with Some e => [e] | None => [] end))%nat.
Proof.
  destruct i as [name now p|due]; unfold step, stepOf.
  - destruct (existsb (String.eqb name) pipelineEvents); simpl; [|lia].
    pose proof (handleEvent_status_length name now p s). lia.
  - unfold fireTimer.
    destruct (existsb (Z.eqb due) (timers s)); simpl; lia.
Qed.

Lemma omap_cons_length {A B : Type} (f : A -> option B) (x : A) (l : list A) :
  length (omap f (x :: l))
  = (length (match f x with Some e => [e] | None => [] end) + length (omap f l))%nat.
Proof. simpl. now destruct (f x). Qed.

(** X6. The pipeline-step log is an exact record: after any inputs it is
    the log from before followed by one entry per event a listener is
    registered for, in arrival order, each with the event name, the
    payload, and the payload's [ts] or else the clock reading.  Timers and
    unregistered events (such as [ai_token]) add nothing.  The status list
    grows by at most one line per logged event. *)
Theorem log_records_every_handled_event (inputs : list Input) (s : State) :
  pipelineSteps (run inputs s) = pipelineSteps s ++ omap stepOf inputs
  /\ (length (statusMessages (run inputs s))
      <= length (statusMessages s) + length (omap stepOf inputs))%nat
  /\ (forall (name : string) (now : Z) (p : Payload),
        existsb (String.eqb name) pipelineEvents = false ->
        step (SocketEvent name now p) s = s).
Proof.
  split; [|split; [|intros name now p H; unfold step; now rewrite H]].
  - revert s. induction inputs as [|i inputs IH]; intros s; simpl.
    + now rewrite app_nil_r.
    + rewrite IH, step_log, <- app_assoc. f_equal.
      now destruct (stepOf i).
  - revert s. induction inputs as [|i inputs IH]; intros s.
    + simpl. lia.
    + change (run (i :: inputs) s) with (run inputs (step i s)).
      specialize (IH (step i s)). pose proof (step_status_length i s) as Hs.
      rewrite omap_cons_length. lia.
Qed.

Lemma log_records_every_handled_event_witness :
  step (SocketEvent "ai_token" 5 [("ts", JNum 4)]) busyState = busyState.
Proof.
  refine (proj2 (proj2 (log_records_every_handled_event [] busyState))
            "ai_token" 5 [("ts", JNum 4)] _).
  reflexivity.
Defined.

Lemma begin_timers (tId tCreated : Z) (content : string) (s s1 : State)
    (um : ChatMessage) (req : SendMessageRequest) :
  sendMessage_begin tId tCreated content s = Some (s1, um, req) ->
  timers s1 = timers s /\ streaming s1 = streaming s.
Proof.
  unfold sendMessage_begin.
  destruct (currentSession s); [|discriminate].
  destruct (trim content =? "")%string; [discriminate|].
  intros H. injection H as <- _ _. split; reflexivity.
Qed.

(** X7. [sendMessage] cancels no timer.  A status-clear timer left
    pending by an earlier [ai_done] is still pending when the next request
    is issued and through whatever the new cycle delivers; when it fires,
    it empties the status list of the new question. *)
Theorem stale_timer_clears_new_narrative
    (tId tCreated : Z) (content : string) (s s1 : State)
    (um : ChatMessage) (req : SendMessageRequest)
    (due : Z) (during : list Input) :
  sendMessage_begin tId tCreated content s = Some (s1, um, req) ->
  In due (timers s) ->
  Forall (fun i => i <> TimerFired due) during ->
  In due (timers s1)
  /\ In due (timers (run during s1))
  /\ statusMessages (step (TimerFired due) (run during s1)) = [].
Proof.
  intros Hb Hin Hall.
  destruct (begin_timers _ _ _ _ _ _ _ Hb) as [Ht _].
  assert (H1 : In due (timers s1)) by now rewrite Ht.
  assert (H2 : In due (timers (run during s1)))
    by now apply NarratorFacts.run_keeps_timer.
  split; [exact H1|]. split; [exact H2|].
  simpl. now apply NarratorFacts.fireTimer_clears.
Qed.

Lemma stale_timer_clears_new_narrative_witness :
  statusMessages (run [SocketEvent "embedding_start" 20 []]
                    (setStatusMessages (fun _ => [])
                       (setPipelineSteps (fun _ => [])
                          (setMessages (fun prev => prev ++ [newUserMessage 10 11 "next"])
                             (setError None (setIsSending true busyState))))))
  = ["Analyzing your question (building semantic vector)..."]
  /\ statusMessages
       (step (TimerFired 3005)
          (run [SocketEvent "embedding_start" 20 []]
             (setStatusMessages (fun _ => [])
                (setPipelineSteps (fun _ => [])
                   (setMessages (fun prev => prev ++ [newUserMessage 10 11 "next"])
                      (setError None (setIsSending true busyState))))))) = [].
Proof.
  split; [reflexivity|].
  refine (proj2 (proj2 (stale_timer_clears_new_narrative 10 11 "next" busyState _
            (newUserMessage 10 11 "next")
            {| req_message := "next"; req_sessionId := "s1" |}
            3005 [SocketEvent "embedding_start" 20 []] _ _ _))).
  - reflexivity.
  - simpl. now left.
  - repeat constructor. discriminate.
Defined.

Lemma handleEvent_streaming_other (name : string) (now : Z) (p : Payload) (s : State) :
  (name =? "ai_start")%string || (name =? "ai_done")%string = false ->
  streaming (handleEvent name now p s) = streaming s.
Proof.
  intros H. apply orb_false_elim in H as [H1 H2]. revert H1 H2.
  NarratorFacts.by_event name; intros H1 H2; try discriminate; reflexivity.
Qed.

Lemma step_streaming_other (i : Input) (s : State) :
  movesStreaming i = false -> streaming (step i s) = streaming s.
Proof.
  destruct i as [name now p|due]; unfold step, movesStreaming; intros H.
  - destruct (existsb (String.eqb name) pipelineEvents); [|reflexivity].
    now apply handleEvent_streaming_other.
  - unfold fireTimer. now destruct (existsb (Z.eqb due) (timers s)).
Qed.

Lemma run_streaming_other (inputs : list Input) (s : State) :
  forallb (fun i => negb (movesStreaming i)) inputs = true ->
  streaming (run inputs s) = streaming s.
Proof.
  revert s. induction inputs as [|i inputs IH]; intros s H; simpl in *.
  - reflexivity.
  - apply andb_prop in H as [Hi Hrest]. apply negb_true_iff in Hi.
    rewrite (IH _ Hrest). now apply step_streaming_other.
Qed.

Lemma settle_streaming (um : ChatMessage) (o : ApiOutcome) (s : State) :
  streaming (sendMessage_settle um o s) = streaming s.
Proof. now destruct o. Qed.

(** X8. Only the events move the streaming flag: inputs other than
    [ai_start] and [ai_done] leave it alone, and [sendMessage] itself
    never sets or clears it.  So when [ai_start] arrives during a send and
    no [ai_done] follows, the flag is still up after [sendMessage] has
    finished, whether the call was fulfilled or rejected. *)
Theorem streaming_outlives_send_without_ai_done
    (tId tCreated : Z) (content : string) (api : Chat.Api) (s : State)
    (cs : ChatSession) (before after : list Input) (now : Z) (p : Payload) :
  currentSession s = Some cs -> trim content <> "" ->
  fst (api {| req_message := trim content; req_sessionId := sess_id cs |})
  = before ++ SocketEvent "ai_start" now p :: after ->
  forallb (fun i => negb (movesStreaming i)) after = true ->
  streaming (sendMessage tId tCreated content api s) = true.
Proof.
  intros Hcs Hne Hduring Hafter.
  destruct (SendFacts.sendMessage_begin_Some tId tCreated content s cs Hcs Hne)
    as (s1 & Hbegin & _).
  unfold sendMessage. rewrite Hbegin.
  destruct (api _) as [during outcome]. simpl in Hduring. subst during.
  rewrite settle_streaming, NarratorFacts.run_app.
  change (SocketEvent "ai_start" now p :: after)
    with ([SocketEvent "ai_start" now p] ++ after).
  rewrite NarratorFacts.run_app, run_streaming_other by assumption.
  reflexivity.
Qed.

Lemma streaming_outlives_send_without_ai_done_witness :
  streaming
    (sendMessage 10 11 "next"
       (fun _ => ([SocketEvent "embedding_start" 12 [];
                   SocketEvent "ai_start" 13 [];
                   SocketEvent "ai_token" 14 []], Rejected))
       busyState) = true.
Proof.
  apply (streaming_outlives_send_without_ai_done 10 11 "next"
           (fun _ => ([SocketEvent "embedding_start" 12 [];
                       SocketEvent "ai_start" 13 [];
                       SocketEvent "ai_token" 14 []], Rejected))
           busyState sampleSession
           [SocketEvent "embedding_start" 12 []]
           [SocketEvent "ai_token" 14 []] 13 []).
  - reflexivity.
  - vm_compute. discriminate.
  - reflexivity.
  - reflexivity.
Defined.

(** X9. While a send is awaited the narrative is on screen: if the view
    was not loading when the message was sent, then after any inputs
    delivered during the call [MessageList] shows the earlier messages,
    the new user message, and the status block with the current status
    lines and streaming flag. *)
Theorem narrative_visible_while_sending
    (tId tCreated : Z) (content : string) (s : State) (cs : ChatSession)
    (during : list Input) :
  currentSession s = Some cs -> trim content <> "" -> isLoading s = false ->
  exists (s1 : State) (request : SendMessageRequest),
    sendMessage_begin tId tCreated content s
    = Some (s1, newUserMessage tId tCreated content, request)
    /\ messagesArea (run during s1)
       = Messages
           (Conversation
              (messages s ++ [newUserMessage tId tCreated content])
              (Some {| panel_lines := statusMessages (run during s1);
                       panel_streaming := streaming (run during s1) |})).
Proof.
  intros Hcs Hne Hload.
  destruct (SendFacts.sendMessage_begin_Some tId tCreated content s cs Hcs Hne)
    as (s1 & Hbegin & Hmsgs & _).
  exists s1. eexists. split; [exact Hbegin|].
  assert (Hs1 : currentSession s1 = Some cs /\ isLoading s1 = false
                /\ isSending s1 = true).
  { unfold sendMessage_begin in Hbegin. rewrite Hcs in Hbegin.
    destruct (trim content =? "")%string; [discriminate|].
    injection Hbegin as <-. simpl. auto. }
  destruct Hs1 as (Hc1 & Hl1 & Hs1).
  destruct (SessionFacts.run_frame during s1) as (_ & Hc & Hl & Hs & _).
  simpl in Hc, Hl, Hs.
  unfold messagesArea, render.
  rewrite Hc, Hc1, Hl, Hl1, Hs, Hs1, SendFacts.run_messages, Hmsgs.
  now destruct (messages s).
Qed.

Lemma narrative_visible_while_sending_witness :
  exists (s1 : State) (request : SendMessageRequest),
    sendMessage_begin 10 11 "next" busyState
    = Some (s1, newUserMessage 10 11 "next", request)
    /\ messagesArea (run [SocketEvent "ai_start" 12 []] s1)
       = Messages
           (Conversation
              (messages busyState ++ [newUserMessage 10 11 "next"])
              (Some {| panel_lines := statusMessages (run [SocketEvent "ai_start" 12 []] s1);
                       panel_streaming := streaming (run [SocketEvent "ai_start" 12 []] s1) |})).
Proof.
  apply (narrative_visible_while_sending 10 11 "next" busyState sampleSession
           [SocketEvent "ai_start" 12 []]).
  - reflexivity.
  - vm_compute. discriminate.
  - reflexivity.
Defined.

End EventLogFacts.

(* ===================================================================== *)
(** ** Further properties of the socket module *)
(* ===================================================================== *)

Module SocketLifecycleFacts.
Import Socket Samples.

Lemma fresh_not_in (m : gmap nat SocketObj) : m !! fresh (dom m) = None.
Proof. apply not_elem_of_dom, is_fresh. Qed.

Lemma connectSocket_new (config : Config) (t : option string) (w : World) :
  (forall r : nat, socket w = Some r -> ~ isConnected w r) ->
  connectSocket config t w
  = ({| socket := Some (fresh (dom (objects w)));
        objects := <[fresh (dom (objects w)) :=
                       {| sock_url := SOCKET_URL config;
                          sock_path := SOCKET_PATH config;
                          sock_transports := ["websocket"];
                          sock_auth := match t with
                                       | Some tok => if (tok =? "")%string then None else Some tok
                                       | None => None
                                       end;
                          connected := false |}]> (objects w) |},
     fresh (dom (objects w))).
Proof.
  intros Hnot. unfold connectSocket, io.
  destruct (socket w) as [r|] eqn:Hs; [|reflexivity].
  destruct (objects w !! r) as [o|] eqn:Ho; [|reflexivity].
  destruct (connected o) eqn:Hc; [|reflexivity].
  exfalso. apply (Hnot r eq_refl). exists o. auto.
Qed.

(** X10. [connectSocket] always leaves the module holding the socket it
    returns, and never changes or drops a socket object that exists.
    When the module holds no socket, or one that is not connected, the
    returned socket is a new object, not yet connected, created with the
    configured URL and path, the websocket transport, and the token as
    auth (no auth for a missing or empty token); a socket held before is
    left as it was, without being disconnected. *)
Theorem connectSocket_creates_unless_connected
    (config : Config) (t : option string) (w : World) :
  let w' := fst (connectSocket config t w) in
  let a := snd (connectSocket config t w) in
  getSocket w' = Some a
  /\ (forall (r : nat) (o : SocketObj),
        objects w !! r = Some o -> objects w' !! r = Some o)
  /\ ((forall r : nat, socket w = Some r -> ~ isConnected w r) ->
      objects w !! a = None
      /\ objects w' !! a
         = Some {| sock_url := SOCKET_URL config;
                   sock_path := SOCKET_PATH config;
                   sock_transports := ["websocket"];
                   sock_auth := match t with
                                | Some tok => if (tok =? "")%string then None else Some tok
                                | None => None
                                end;
                   connected := false |}).
Proof.
  intros w' a.
  assert (Hkeep : forall (r : nat) (o x : SocketObj),
             objects w !! r = Some o ->
             <[fresh (dom (objects w)) := x]> (objects w) !! r = Some o).
  { intros r o x Ho. rewrite lookup_insert_ne; [exact Ho|].
    intros <-. rewrite fresh_not_in in Ho. discriminate. }
  split; [|split].
  - subst w' a. unfold connectSocket, io.
    destruct (socket w) as [r|] eqn:Hs; [|reflexivity].
    destruct (objects w !! r) as [o|]; [|reflexivity].
    destruct (connected o); [exact Hs|reflexivity].
  - intros r o Ho. subst w'. unfold connectSocket, io.
    destruct (socket w) as [r0|]; [|now apply Hkeep].
    destruct (objects w !! r0) as [o0|]; [|now apply Hkeep].
    destruct (connected o0); [exact Ho|now apply Hkeep].
  - intros Hnot. subst w' a. rewrite (connectSocket_new config t w Hnot). simpl.
    split; [apply fresh_not_in|apply lookup_insert_eq].
Qed.

Lemma connectSocket_creates_unless_connected_witness :
  let w1 := fst (connectSocket sampleConfig (Some "t1") emptyWorld) in
  objects w1 !! snd (connectSocket sampleConfig (Some "") w1) = None.
Proof.
  intros w1.
  refine (proj1 (proj2 (proj2
            (connectSocket_creates_unless_connected sampleConfig (Some "") w1)) _)).
  intros r Hr (o & Ho & Hc).
  vm_compute in Hr. injection Hr as <-.
  vm_compute in Ho. injection Ho as <-. discriminate.
Defined.

(** X11. After [disconnectSocket] the module holds no socket, a second
    [disconnectSocket] changes nothing, and the socket that was held is
    marked not connected.  A later [connectSocket] then returns a socket
    other than the one that was disconnected. *)
Theorem disconnect_then_connect_gives_new_socket
    (config : Config) (t : option string) (w : World) (r : nat) (o : SocketObj) :
  socket w = Some r -> objects w !! r = Some o ->
  getSocket (disconnectSocket w) = None
  /\ disconnectSocket (disconnectSocket w) = disconnectSocket w
  /\ objects (disconnectSocket w) !! r = Some (setConnected false o)
  /\ snd (connectSocket config t (disconnectSocket w)) <> r.
Proof.
  intros Hs Ho.
  assert (Hd : disconnectSocket w
               = {| socket := None;
                    objects := alter (setConnected false) r (objects w) |}).
  { unfold disconnectSocket. now rewrite Hs. }
  rewrite Hd. split; [reflexivity|]. split; [reflexivity|]. split.
  - simpl. now rewrite lookup_alter_eq, Ho.
  - unfold connectSocket, io. simpl. intros Heq.
    pose proof (fresh_not_in (alter (setConnected false) r (objects w))) as Hf.
    rewrite Heq, lookup_alter_eq, Ho in Hf. discriminate.
Qed.

Lemma disconnect_then_connect_gives_new_socket_witness :
  let w1 := fst (connectSocket sampleConfig (Some "t1") emptyWorld) in
  snd (connectSocket sampleConfig None (disconnectSocket w1)) <> 0%nat.
Proof.
  intros w1.
  refine (proj2 (proj2 (proj2
            (disconnect_then_connect_gives_new_socket sampleConfig None w1 0%nat
               _ _ _)))).
  - reflexivity.
  - reflexivity.
Defined.

End SocketLifecycleFacts.

(* ===================================================================== *)
(** ** Properties of the auth provider and its storage *)
(* ===================================================================== *)

Module AuthProviderFacts.
Import Js Types Auth AuthProvider Samples.

Lemma onResponseError_other_key (e : HttpError) (w : World) (k : string) :
  k <> "access_token" -> k <> "user" ->
  storage (onResponseError e w) !! k = storage w !! k.
Proof.
  intros H1 H2. unfold onResponseError.
  destruct (err_status e) as [status|]; [|reflexivity].
  destruct (status =? 401)%Z; [|reflexivity].
  simpl. now rewrite !lookup_delete_ne by congruence.
Qed.

Lemma authenticate_other_key (J : Json) (fallback : string)
    (reply : Reply AuthResponse) (w : World) (k : string) :
  k <> "access_token" -> k <> "user" ->
  storage (fst (authenticate J fallback reply w)) !! k = storage w !! k.
Proof.
  intros H1 H2. unfold authenticate. destruct reply as [response|e]; simpl.
  - now rewrite !lookup_insert_ne by congruence.
  - apply (onResponseError_other_key e (dispatch AUTH_START w) k H1 H2).
Qed.

Lemma apply_other_key (J : Json) (op : Op) (w : World) (k : string) :
  k <> "access_token" -> k <> "user" ->
  storage (apply J op w) !! k = storage w !! k.
Proof.
  intros H1 H2. destruct op; simpl.
  - now apply authenticate_other_key.
  - now apply authenticate_other_key.
  - now rewrite !lookup_delete_ne by congruence.
  - reflexivity.
  - now apply onResponseError_other_key.
Qed.

Lemma applyAll_other_key (J : Json) (ops : list Op) (w : World) (k : string) :
  k <> "access_token" -> k <> "user" ->
  storage (applyAll J ops w) !! k = storage w !! k.
Proof.
  intros H1 H2. revert w. induction ops as [|op ops IH]; intros w; simpl.
  - reflexivity.
  - change (applyAll J (op :: ops) w) with (applyAll J ops (apply J op w)).
    rewrite IH. now apply apply_other_key.
Qed.

(** X12. No auth operation writes the storage key [token]: logging in,
    signing up, logging out and failed calls only touch [access_token]
    and [user].  [ChatInterface] reads the socket token from the key
    [token]; so unless that key was put there by other means, the socket
    it creates on mount carries no auth, even right after a successful
    login. *)
Theorem socket_token_key_is_never_written
    (J : Json) (ops : list Op) (w : World)
    (config : Socket.Config) (net : Socket.World) :
  storage (applyAll J ops w) !! "token" = storage w !! "token"
  /\ (storage w !! "token" = None ->
      (forall r : nat, Socket.socket net = Some r -> ~ Socket.isConnected net r) ->
      socketToken (storage (applyAll J ops w)) = None
      /\ exists o : Socket.SocketObj,
           Socket.objects (fst (mountSocket config (storage (applyAll J ops w)) net))
             !! snd (mountSocket config (storage (applyAll J ops w)) net) = Some o
           /\ Socket.sock_auth o = None).
Proof.
  assert (Hkey : storage (applyAll J ops w) !! "token" = storage w !! "token")
    by (apply applyAll_other_key; discriminate).
  split; [exact Hkey|]. intros Hnone Hnet.
  assert (Htok : socketToken (storage (applyAll J ops w)) = None).
  { unfold socketToken. now rewrite Hkey, Hnone. }
  split; [exact Htok|].
  unfold mountSocket. rewrite Htok.
  rewrite (SocketLifecycleFacts.connectSocket_new config None net Hnet). simpl.
  eexists. split; [apply lookup_insert_eq|reflexivity].
Qed.

Lemma socket_token_key_is_never_written_witness :
  socketToken
    (storage (applyAll sampleJson [OpLogin (Ok sampleResponse)] freshWorld)) = None.
Proof.
  refine (proj1 (proj2 (socket_token_key_is_never_written sampleJson
            [OpLogin (Ok sampleResponse)] freshWorld sampleConfig
            Socket.emptyWorld) _ _)).
  - reflexivity.
  - intros r Hr. discriminate.
Defined.

(** While no redirect is under way, a signed-in state holds the token
    that is in storage, and a user text is stored. *)
Lemma apply_keeps_agreement (J : Json) (op : Op) (w : World) :
  (redirect w = None -> isAuthenticated (state w) = true ->
   storage w !! "access_token" = token (state w)
   /\ is_Some (storage w !! "user")) ->
  redirect (apply J op w) = None ->
  isAuthenticated (state (apply J op w)) = true ->
  storage (apply J op w) !! "access_token" = token (state (apply J op w))
  /\ is_Some (storage (apply J op w) !! "user").
Proof.
  intros Hw. destruct op as [reply|reply| | |e]; simpl.
  - destruct reply as [response|e]; simpl.
    + intros _ _. rewrite lookup_insert_ne by discriminate.
      rewrite !lookup_insert_eq. eauto.
    + unfold onResponseError. destruct (err_status e) as [status|]; simpl;
        [destruct (status =? 401)%Z; simpl|]; discriminate.
  - destruct reply as [response|e]; simpl.
    + intros _ _. rewrite lookup_insert_ne by discriminate.
      rewrite !lookup_insert_eq. eauto.
    + unfold onResponseError. destruct (err_status e) as [status|]; simpl;
        [destruct (status =? 401)%Z; simpl|]; discriminate.
  - discriminate.
  - exact Hw.
  - unfold onResponseError. destruct (err_status e) as [status|]; [|exact Hw].
    destruct (status =? 401)%Z; [discriminate|exact Hw].
Qed.

(** X13. From a page load on, through any logins, signups, logouts and
    failed calls, and as long as the interceptor has not sent the browser
    to the login page: whenever the state says signed in, the token in
    the state is the one stored under [access_token], and a user text is
    stored.  Requests then carry that token in their [Authorization]
    header, unless it is the empty string. *)
Theorem signed_in_state_agrees_with_storage
    (J : Json) (store : gmap string string) (w0 : World) (ops : list Op) :
  pageLoad J store = Some w0 ->
  let w := applyAll J ops w0 in
  redirect w = None -> isAuthenticated (state w) = true ->
  storage w !! "access_token" = token (state w)
  /\ is_Some (storage w !! "user")
  /\ (forall tok : string,
        token (state w) = Some tok -> tok <> "" ->
        authorizationHeader (storage w) = Some ("Bearer " +:+ tok)).
Proof.
  intros Hload w.
  assert (H0 : redirect w0 = None -> isAuthenticated (state w0) = true ->
               storage w0 !! "access_token" = token (state w0)
               /\ is_Some (storage w0 !! "user")).
  { unfold pageLoad, initEffect in Hload. simpl in Hload.
    destruct (store !! "access_token") as [tok|] eqn:Ht;
      [destruct (store !! "user") as [userStr|] eqn:Hu|].
    - destruct ((tok =? "")%string || (userStr =? "")%string).
      + injection Hload as <-. discriminate.
      + destruct (parse J userStr); try discriminate;
          injection Hload as <-; simpl; [discriminate|].
        intros _ _. rewrite Ht, Hu. eauto.
    - injection Hload as <-. discriminate.
    - injection Hload as <-. discriminate. }
  assert (Hinv : redirect w = None -> isAuthenticated (state w) = true ->
                 storage w !! "access_token" = token (state w)
                 /\ is_Some (storage w !! "user")).
  { subst w. clear Hload. revert w0 H0.
    induction ops as [|op ops IH]; intros w0 H0; [exact H0|].
    change (applyAll J (op :: ops) w0) with (applyAll J ops (apply J op w0)).
    apply IH. now apply apply_keeps_agreement. }
  intros Hr Ha. destruct (Hinv Hr Ha) as [Htok Huser].
  split; [exact Htok|]. split; [exact Huser|].
  intros tok Hst Hne. unfold authorizationHeader. rewrite Htok, Hst.
  destruct (String.eqb_spec tok ""); [contradiction|reflexivity].
Qed.

Lemma signed_in_state_agrees_with_storage_witness :
  let w := applyAll sampleJson
             [OpLogin (Fail {| err_status := Some 500; err_message := None |});
              OpLogin (Ok sampleResponse); OpClearError]
             freshWorld in
  storage w !! "access_token" = token (state w).
Proof.
  intros w.
  refine (proj1 (signed_in_state_agrees_with_storage sampleJson ∅ freshWorld
            [OpLogin (Fail {| err_status := Some 500; err_message := None |});
             OpLogin (Ok sampleResponse); OpClearError] _ _ _));
    reflexivity.
Defined.

(** X14. Signing in survives a reload.  After a fulfilled login or
    signup whose token is not empty, a page load over the storage left
    behind puts the provider in the very state the login ended in: signed
    in, with the same user and token.  (The JSON built-ins are assumed to
    give the user back from its own text, and that text not to be
    empty.) *)
Theorem login_survives_reload
    (J : Json) (fallback : string) (response : AuthResponse) (w : World) :
  access_token response <> "" ->
  stringify J (resp_user response) <> "" ->
  parse J (stringify J (resp_user response)) = ParsedUser (resp_user response) ->
  let w' := fst (authenticate J fallback (Ok response) w) in
  state w' = {| user := Some (resp_user response);
                token := Some (access_token response);
                isAuthenticated := true;
                isLoading := false;
                error := None |}
  /\ exists w'' : World,
       pageLoad J (storage w') = Some w''
       /\ state w'' = state w'
       /\ storage w'' = storage w'.
Proof.
  intros Htok Hstr Hparse w'. split; [reflexivity|].
  unfold pageLoad, initEffect. subst w'. simpl.
  rewrite lookup_insert_ne by discriminate.
  rewrite !lookup_insert_eq.
  destruct (String.eqb_spec (access_token response) ""); [contradiction|].
  destruct (String.eqb_spec (stringify J (resp_user response)) ""); [contradiction|].
  simpl. rewrite Hparse. eexists. split; [reflexivity|].
  split; [|reflexivity]. simpl. now destruct response.
Qed.

Lemma login_survives_reload_witness :
  exists w'' : World,
    pageLoad sampleJson (storage (fst (login sampleJson (Ok sampleResponse) freshWorld)))
    = Some w''
    /\ state w'' = state (fst (login sampleJson (Ok sampleResponse) freshWorld))
    /\ storage w'' = storage (fst (login sampleJson (Ok sampleResponse) freshWorld)).
Proof.
  refine (proj2 (login_survives_reload sampleJson "Login failed" sampleResponse
            freshWorld _ _ _)).
  - discriminate.
  - discriminate.
  - reflexivity.
Defined.

(** X15. [logout], from any state: the state is signed out with no user,
    no token and no error; storage holds neither [access_token] nor
    [user]; [authAPI.isAuthenticated] answers false and requests carry no
    [Authorization] header; and a reload stays signed out, in the initial
    state. *)
Theorem logout_clears_state_and_storage (J : Json) (w : World) :
  let w' := logout w in
  isAuthenticated (state w') = false
  /\ user (state w') = None /\ token (state w') = None /\ error (state w') = None
  /\ storage w' !! "access_token" = None /\ storage w' !! "user" = None
  /\ authAPI_isAuthenticated w' = false
  /\ authorizationHeader (storage w') = None
  /\ pageLoad J (storage w')
     = Some {| state := initialState; storage := storage w'; redirect := None |}.
Proof.
  intros w'.
  assert (Ht : storage w' !! "access_token" = None).
  { subst w'. simpl. rewrite lookup_delete_ne by discriminate.
    apply lookup_delete_eq. }
  assert (Hu : storage w' !! "user" = None).
  { subst w'. simpl. apply lookup_delete_eq. }
  repeat split; try assumption.
  - unfold authAPI_isAuthenticated. now rewrite Ht.
  - unfold authorizationHeader. now rewrite Ht.
  - unfold pageLoad, initEffect. simpl. fold w'.
    change (delete "user" (delete "access_token" (storage w))) with (storage w').
    now rewrite Ht.
Qed.

(** X16. A rejected login or signup ends signed out, not loading, with
    the error thrown on to the caller and an error text that is never
    empty: the server's message, or the fallback when there is none or it
    is empty.  Storage and address are untouched unless the status was
    401; on 401 both storage keys are removed and the browser is sent to
    the login page. *)
Theorem rejected_login_reports_error
    (J : Json) (e : HttpError) (w : World) :
  let w1 := fst (login J (Fail e) w) in
  let w2 := fst (signup J (Fail e) w) in
  snd (login J (Fail e) w) = true /\ snd (signup J (Fail e) w) = true
  /\ isAuthenticated (state w1) = false /\ isLoading (state w1) = false
  /\ user (state w1) = None /\ token (state w1) = None
  /\ error (state w1) = Some (messageOr "Login failed" e)
  /\ error (state w2) = Some (messageOr "Signup failed" e)
  /\ messageOr "Login failed" e <> "" /\ messageOr "Signup failed" e <> ""
  /\ (err_status e <> Some 401 ->
      storage w1 = storage w /\ redirect w1 = redirect w)
  /\ (err_status e = Some 401 ->
      storage w1 !! "access_token" = None /\ storage w1 !! "user" = None
      /\ redirect w1 = Some "/login").
Proof.
  intros w1 w2.
  assert (Hmsg : forall fallback : string, fallback <> "" -> messageOr fallback e <> "").
  { intros fallback Hf. unfold messageOr.
    destruct (err_message e) as [m|]; [|exact Hf].
    destruct (String.eqb_spec m ""); [exact Hf|assumption]. }
  do 8 (split; [reflexivity|]).
  split; [apply Hmsg; discriminate|].
  split; [apply Hmsg; discriminate|].
  subst w1. unfold login, authenticate, request. simpl. unfold onResponseError.
  split.
  - intros Hne. destruct (err_status e) as [status|]; [|split; reflexivity].
    destruct (Z.eqb_spec status 401); [congruence|split; reflexivity].
  - intros He. rewrite He. simpl.
    rewrite lookup_delete_ne by discriminate. rewrite !lookup_delete_eq.
    repeat split.
Qed.

Lemma rejected_login_reports_error_witness :
  let w1 := fst (login sampleJson
                   (Fail {| err_status := Some 401; err_message := Some "" |})
                   (fst (login sampleJson (Ok sampleResponse) freshWorld))) in
  storage w1 !! "access_token" = None /\ storage w1 !! "user" = None
  /\ redirect w1 = Some "/login".
Proof.
  intros w1.
  refine (proj2 (proj2 (proj2 (proj2 (proj2 (proj2 (proj2 (proj2 (proj2 (proj2 (proj2
            (rejected_login_reports_error sampleJson
               {| err_status := Some 401; err_message := Some "" |}
               (fst (login sampleJson (Ok sampleResponse) freshWorld))))))))))))) _).
  reflexivity.
Defined.

End AuthProviderFacts.

(* ===================================================================== *)
(** ** Properties of the configuration and the route guards *)
(* ===================================================================== *)

Module ConfigFacts.
Import Config.



(** X17. [validateConfig] never warns: in every environment the list of
    missing variables is empty, because each required variable has a
    non-empty default. *)
Theorem validateConfig_never_warns (env : gmap string string) :
  missingVars env = [] /\ warned (validateConfig env) = None.
Proof.
  assert (H : missingVars env = []).
  { unfold missingVars, requiredEnvVars. simpl.
    now rewrite !andb_false_r. }
  split; [exact H|]. unfold validateConfig. simpl. now rewrite H.
Qed.



End ConfigFacts.

Module RouteFacts.
Import Auth App.

Lemma settle_cases (path : Path) (s : AuthState) :
  exists element : Element,
    settle 2 path s = Some element
    /\ (forall to : Path, element <> Navigate to)
    /\ (forall page : Page,
          element = Show page -> isProtected page = isAuthenticated s)
    /\ (forall page : Page,
          element = Show page -> isProtected page = true -> isLoading s = false).
Proof.
  destruct s as [u t authed loading e].
  destruct path, loading, authed; cbn;
    eexists; (split; [reflexivity|]);
    (split; [discriminate|]);
    split; intros page Hp; try discriminate;
    injection Hp as <-; try reflexivity; try discriminate.
Qed.

(** X19. For every auth state and every location, the route guards come
    to rest after at most two redirects, on a page or on the loading
    screen.  They consult the two flags only, never [user] or [token]:
    states with the same [isAuthenticated] and [isLoading] are shown the
    same thing.  A protected page (chat, content management) is shown
    exactly to states with [isAuthenticated] true, and then only when not
    loading; the login and signup pages are shown only to states with
    [isAuthenticated] false; the loading screen only while loading. *)
Theorem route_guards_settle (s : AuthState) (path : Path) :
  exists element : Element,
    settle 2 path s = Some element
    /\ (forall to : Path, element <> Navigate to)
    /\ (forall page : Page,
          element = Show page -> isProtected page = isAuthenticated s)
    /\ (forall page : Page,
          element = Show page -> isProtected page = true -> isLoading s = false)
    /\ (element = LoadingScreen -> isLoading s = true)
    /\ (forall s2 : AuthState,
          isAuthenticated s2 = isAuthenticated s -> isLoading s2 = isLoading s ->
          settle 2 path s2 = Some element).
Proof.
  destruct (settle_cases path s) as (element & Hsettle & Hnav & Hauth & Hload).
  exists element. repeat (split; [assumption|]). split.
  - intros ->. clear Hnav Hauth Hload. revert Hsettle.
    destruct s as [u t authed loading e].
    destruct path, loading, authed; cbn; intros H; try discriminate H; reflexivity.
  - intros s2 Ha Hl. rewrite <- Hsettle. clear Hsettle Hnav Hauth Hload.
    destruct s as [u t authed loading e], s2 as [u2 t2 authed2 loading2 e2].
    simpl in Ha, Hl. subst. reflexivity.
Qed.

Lemma route_guards_settle_witness :
  settle 2 PathLogin
    {| user := None; token := Some "tok"; isAuthenticated := true;
       isLoading := false; error := None |}
  = Some (Show ChatInterfacePage).
Proof.
  destruct (route_guards_settle
              {| user := Some Samples.sampleUser; token := Some "tok";
                 isAuthenticated := true; isLoading := false; error := None |}
              PathLogin)
    as (element & Hsettle & _ & _ & _ & _ & Hsame).
  vm_compute in Hsettle. injection Hsettle as <-.
  apply Hsame; reflexivity.
Defined.

End RouteFacts.

(* ===================================================================== *)
(** ** Properties of the message input and the sidebar titles *)
(* ===================================================================== *)

Module InputFacts.
Import Js Types Chat MessageInput ChatSidebar JsString Samples.

Lemma trimStart_fixed (c : ascii) (rest : string) :
  isWhiteSpace c = false -> trimStart (String c rest) = String c rest.
Proof. intros H. simpl. now rewrite H. Qed.

Lemma trimStart_head (s : string) :
  trimStart s = "" \/ exists (c : ascii) (rest : string),
                        trimStart s = String c rest /\ isWhiteSpace c = false.
Proof.
  induction s as [|c s IH]; simpl; [now left|].
  destruct (isWhiteSpace c) eqn:Hc; [exact IH|].
  right. exists c, s. auto.
Qed.

Lemma trimEnd_head (c : ascii) (rest : string) :
  isWhiteSpace c = false ->
  exists rest' : string, trimEnd (String c rest) = String c rest'.
Proof.
  intros Hc. simpl. destruct (trimEnd rest) as [|c' r'].
  - rewrite Hc. eauto.
  - eauto.
Qed.

Lemma trimEnd_idempotent (s : string) : trimEnd (trimEnd s) = trimEnd s.
Proof.
  induction s as [|c s IH]; simpl; [reflexivity|].
  destruct (trimEnd s) as [|c' r'] eqn:Hs.
  - destruct (isWhiteSpace c) eqn:Hc; simpl; [reflexivity|now rewrite Hc].
  - change (trimEnd (String c (String c' r'))) with
      (match trimEnd (String c' r') with
       | EmptyString => if isWhiteSpace c then EmptyString else String c EmptyString
       | rest' => String c rest'
       end).
    now rewrite IH.
Qed.

Lemma trim_idempotent (s : string) : trim (trim s) = trim s.
Proof.
  unfold trim. destruct (trimStart_head s) as [->|(c & rest & -> & Hc)];
    [reflexivity|].
  destruct (trimEnd_head c rest Hc) as [rest' Hr].
  rewrite Hr, (trimStart_fixed c rest' Hc), <- Hr.
  apply trimEnd_idempotent.
Qed.

(** X20. A draft submitted through the input box while a session is open
    and nothing is being sent reaches the conversation trimmed, exactly
    once: the box is emptied, [sendMessage] accepts the text (its own
    blank check cannot fail), and the user message and the request both
    carry the trimmed draft.  A blank draft, or a submit while a send is
    in flight, changes nothing and keeps the draft. *)
Theorem submitted_draft_is_sent_trimmed
    (tId tCreated : Z) (api : Chat.Api) (draft : string) (s : State) (cs : ChatSession) :
  currentSession s = Some cs ->
  (isSending s = false -> trim draft <> "" ->
   submit tId tCreated api draft s
   = ("", sendMessage tId tCreated (trim draft) api s)
   /\ exists s1 : State,
        sendMessage_begin tId tCreated (trim draft) s
        = Some (s1,
                {| msg_id := pretty tId; msg_role := RoleUser;
                   msg_content := trim draft; msg_createdAt := tCreated;
                   msg_contextPassages := None |},
                {| req_message := trim draft; req_sessionId := sess_id cs |}))
  /\ (isSending s = true \/ trim draft = "" ->
      submit tId tCreated api draft s = (draft, s)).
Proof.
  intros Hcs. split.
  - intros Hs Hne. split.
    + unfold submit, handleSubmit. rewrite Hcs, Hs.
      destruct (String.eqb_spec (trim draft) ""); [contradiction|reflexivity].
    + assert (Hne' : trim (trim draft) <> "") by now rewrite trim_idempotent.
      destruct (SendFacts.sendMessage_begin_Some tId tCreated (trim draft) s cs
                  Hcs Hne') as (s1 & Hbegin & _).
      exists s1. rewrite Hbegin. unfold newUserMessage.
      now rewrite trim_idempotent.
  - intros [Hs|He]; unfold submit, handleSubmit; rewrite Hcs.
    + rewrite Hs. now rewrite andb_false_r.
    + rewrite He. reflexivity.
Qed.

Lemma submitted_draft_is_sent_trimmed_witness :
  submit 10 11 (fun _ => ([], Rejected)) "  hi  " twoSessions
  = ("", sendMessage 10 11 "hi" (fun _ => ([], Rejected)) twoSessions).
Proof.
  refine (proj1 (proj1 (submitted_draft_is_sent_trimmed 10 11
            (fun _ => ([], Rejected)) "  hi  " twoSessions sampleSession _) _ _)).
  - reflexivity.
  - reflexivity.
  - vm_compute. discriminate.
Defined.

Lemma length_append (a b : string) :
  String.length (a +:+ b) = (String.length a + String.length b)%nat.
Proof. induction a as [|c a IH]; simpl; [reflexivity|now rewrite IH]. Qed.

Lemma length_sliceTo (n : nat) (s : string) :
  String.length (sliceTo n s) = Nat.min n (String.length s).
Proof.
  unfold sliceTo. revert n. induction s as [|c s IH]; intros [|n]; simpl; auto.
Qed.

(** X21. The sidebar shows a titled session under at most 11
    characters.  A title of up to 8 characters that does not end in three
    dots is shown as it is; a longer one is cut to its first 8 characters
    followed by three dots.  A title ending in three dots loses them
    first, and gets none back if 8 characters or fewer remain: the title
    "..." is shown as the empty string. *)
Theorem sidebar_title_is_cut_to_eight
    (formatDate : Z -> string) (session : ChatSession) (title : string) :
  sess_title session = Some title -> title <> "" ->
  let shown := getSessionTitle formatDate session in
  (String.length shown <= 11)%nat
  /\ (endsWith "..." title = false -> (String.length title <= 8)%nat ->
      shown = title)
  /\ (endsWith "..." title = false -> (8 < String.length title)%nat ->
      shown = sliceTo 8 title +:+ "..." /\ String.length shown = 11%nat)
  /\ (endsWith "..." title = true -> (String.length title <= 11)%nat ->
      shown = sliceOff 3 title
      /\ String.length shown = (String.length title - 3)%nat).
Proof.
  intros Ht Hne shown.
  assert (Hshown : shown =
            let base := if endsWith "..." title then sliceOff 3 title else title in
            if (8 <? String.length base)%nat then sliceTo 8 base +:+ "..." else base).
  { subst shown. unfold getSessionTitle. rewrite Ht.
    destruct (String.eqb_spec title ""); [contradiction|reflexivity]. }
  assert (Hoff : String.length (sliceOff 3 title) = (String.length title - 3)%nat).
  { unfold sliceOff. fold (sliceTo (String.length title - 3) title).
    rewrite length_sliceTo. lia. }
  split; [|split; [|split]].
  - rewrite Hshown. simpl.
    destruct (Nat.ltb_spec 8 (String.length
                (if endsWith "..." title then sliceOff 3 title else title))).
    + rewrite length_append, length_sliceTo.
      change (String.length "...") with 3%nat. lia.
    + lia.
  - intros He Hlen. rewrite Hshown, He. simpl.
    destruct (Nat.ltb_spec 8 (String.length title)); [lia|reflexivity].
  - intros He Hlen. rewrite Hshown, He. simpl.
    destruct (Nat.ltb_spec 8 (String.length title)); [|lia].
    split; [reflexivity|]. rewrite length_append, length_sliceTo.
    change (String.length "...") with 3%nat. lia.
  - intros He Hlen. rewrite Hshown, He. simpl.
    destruct (Nat.ltb_spec 8 (String.length (sliceOff 3 title))); [lia|].
    split; [reflexivity|exact Hoff].
Qed.

Lemma sidebar_title_is_cut_to_eight_witness :
  getSessionTitle (fun _ => "today")
    {| sess_id := "s"; sess_title := Some "..."; sess_createdAt := 0;
       sess_updatedAt := 0; sess_messages := None |} = "".
Proof.
  refine (proj1 (proj2 (proj2 (proj2
            (sidebar_title_is_cut_to_eight (fun _ => "today")
               {| sess_id := "s"; sess_title := Some "..."; sess_createdAt := 0;
                  sess_updatedAt := 0; sess_messages := None |} "..." _ _))) _ _)).
  - reflexivity.
  - discriminate.
  - reflexivity.
  - simpl. lia.
Defined.

End InputFacts.

(* ===================================================================== *)
(** ** Properties of the upload loop *)
(* ===================================================================== *)

Module UploadFacts.
Import FileUpload.

Lemma settleEntry_id (o : UploadOutcome) (f : UploadFile) :
  up_id (settleEntry o f) = up_id f /\ up_file (settleEntry o f) = up_file f.
Proof. destruct o; split; reflexivity. Qed.

Lemma settleEntry_status (o : UploadOutcome) (f : UploadFile) :
  up_status (settleEntry o f) = Success \/ up_status (settleEntry o f) = Error.
Proof. destruct o; [left|right]; reflexivity. Qed.

Lemma uploadOne_map (outcome : nat -> UploadOutcome) (k : nat)
    (u : UploadFile) (files : list UploadFile) :
  uploadOne outcome k u files
  = map (fun f => if (up_id f =? up_id u)%string
                  then settleEntry (outcome k) f else f) files.
Proof.
  unfold uploadOne, settleEntry, updateById.
  destruct (outcome k); rewrite map_map; apply map_ext; intros f;
    destruct (up_id f =? up_id u)%string eqn:E; simpl; now rewrite E.
Qed.

Lemma uploadLoop_map (outcome : nat -> UploadOutcome) (k : nat)
    (pendingFiles files : list UploadFile) :
  uploadLoop outcome k pendingFiles files
  = map (followEntry outcome k pendingFiles) files.
Proof.
  revert k files. induction pendingFiles as [|u rest IH]; intros k files; simpl.
  - now rewrite map_id.
  - now rewrite IH, uploadOne_map, map_map.
Qed.

Lemma followEntry_id (outcome : nat -> UploadOutcome) (k : nat)
    (pendingFiles : list UploadFile) (f : UploadFile) :
  up_id (followEntry outcome k pendingFiles f) = up_id f
  /\ up_file (followEntry outcome k pendingFiles f) = up_file f.
Proof.
  revert k f. induction pendingFiles as [|u rest IH]; intros k f; simpl.
  - split; reflexivity.
  - destruct (IH (S k) (if (up_id f =? up_id u)%string
                        then settleEntry (outcome k) f else f)) as [H1 H2].
    rewrite H1, H2.
    destruct (up_id f =? up_id u)%string; [apply settleEntry_id|split; reflexivity].
Qed.

Lemma followEntry_untouched (outcome : nat -> UploadOutcome) (k : nat)
    (pendingFiles : list UploadFile) (f : UploadFile) :
  (forall p : UploadFile, In p pendingFiles -> up_id p <> up_id f) ->
  followEntry outcome k pendingFiles f = f.
Proof.
  revert k. induction pendingFiles as [|u rest IH]; intros k H; simpl.
  - reflexivity.
  - destruct (String.eqb_spec (up_id f) (up_id u)) as [E|_].
    + exfalso. apply (H u); [now left|now symmetry].
    + apply IH. intros p Hp. apply H. now right.
Qed.

Lemma followEntry_settles (outcome : nat -> UploadOutcome) (k : nat)
    (pendingFiles : list UploadFile) (f : UploadFile) :
  settled f \/ (exists p : UploadFile, In p pendingFiles /\ up_id p = up_id f) ->
  settled (followEntry outcome k pendingFiles f).
Proof.
  revert k f. induction pendingFiles as [|u rest IH]; intros k f H; simpl.
  - destruct H as [H|(p & [] & _)]. exact H.
  - apply IH. destruct (String.eqb_spec (up_id f) (up_id u)) as [E|Hne].
    + left. apply settleEntry_status.
    + destruct H as [H|(p & [<-|Hp] & Hid)]; [now left|congruence|].
      right. eauto.
Qed.

Lemma followEntry_untouched_or_settled (outcome : nat -> UploadOutcome) (k : nat)
    (pendingFiles : list UploadFile) (f : UploadFile) :
  followEntry outcome k pendingFiles f = f
  \/ settled (followEntry outcome k pendingFiles f).
Proof.
  revert k f. induction pendingFiles as [|u rest IH]; intros k f; simpl.
  - now left.
  - destruct (up_id f =? up_id u)%string; [|apply IH].
    right. apply followEntry_settles. left. apply settleEntry_status.
Qed.

Lemma In_filter_pending (f : UploadFile) (files : list UploadFile) :
  In f (List.filter isPending files) <-> In f files /\ up_status f = Pending.
Proof.
  rewrite filter_In. unfold isPending.
  destruct (up_status f); simpl; intuition discriminate.
Qed.

Lemma filter_pending_none (files : list UploadFile) :
  Forall (fun f => up_status f <> Pending) files ->
  List.filter isPending files = [].
Proof.
  induction 1 as [|f files Hf _ IH]; simpl; [reflexivity|].
  unfold isPending at 1. destruct (up_status f); simpl; try exact IH.
  contradiction.
Qed.

(** X22. [uploadFiles] leaves no file pending, whatever the uploads do.
    The list keeps its length, order, ids and files; only status,
    progress and error text change.  When no entry was mid-upload at the
    start, every entry ends as success or error.  An entry that shares
    its id with no pending entry is left exactly as it was. *)
Theorem uploadFiles_leaves_nothing_pending
    (outcome : nat -> UploadOutcome) (files : list UploadFile) :
  let files' := uploadFiles outcome files in
  length files' = length files
  /\ map up_id files' = map up_id files
  /\ map up_file files' = map up_file files
  /\ pendingCount files' = 0%nat
  /\ (Forall (fun f => up_status f <> Uploading) files -> Forall settled files')
  /\ (forall f : UploadFile,
        In f files ->
        (forall p : UploadFile,
            In p files -> up_status p = Pending -> up_id p <> up_id f) ->
        In f files').
Proof.
  intros files'. subst files'. unfold uploadFiles. rewrite uploadLoop_map.
  set (F := followEntry outcome 0 (List.filter isPending files)).
  assert (Hnp : forall f : UploadFile, In f files -> up_status f <> Uploading ->
                                       settled (F f)).
  { intros f Hin Hu. apply followEntry_settles.
    destruct (up_status f) eqn:Hs.
    - right. exists f. split; [|reflexivity]. apply In_filter_pending. auto.
    - contradiction.
    - left. now left.
    - left. now right. }
  assert (Hnot : forall f : UploadFile, In f files -> up_status (F f) <> Pending).
  { intros f Hin. destruct (up_status f) eqn:Hs.
    - destruct (Hnp f Hin) as [H|H]; [rewrite Hs; discriminate|congruence..].
    - destruct (followEntry_untouched_or_settled outcome 0
                  (List.filter isPending files) f) as [H|[H|H]];
        fold F in H; congruence.
    - destruct (Hnp f Hin) as [H|H]; [rewrite Hs; discriminate|congruence..].
    - destruct (Hnp f Hin) as [H|H]; [rewrite Hs; discriminate|congruence..]. }
  split; [apply length_map|].
  split; [rewrite map_map; apply map_ext; intros f; apply followEntry_id|].
  split; [rewrite map_map; apply map_ext; intros f; apply followEntry_id|].
  split; [|split].
  - unfold pendingCount. rewrite filter_pending_none; [reflexivity|].
    apply List.Forall_forall. intros g Hg. apply in_map_iff in Hg as (f & <- & Hin).
    now apply Hnot.
  - intros Hall. apply List.Forall_forall. intros g Hg.
    apply in_map_iff in Hg as (f & <- & Hin).
    apply Hnp; [exact Hin|]. rewrite List.Forall_forall in Hall. now apply Hall.
  - intros f Hin Hother. apply in_map_iff. exists f. split; [|exact Hin].
    apply followEntry_untouched. intros p Hp.
    apply In_filter_pending in Hp as [Hp Hs]. now apply Hother.
Qed.

Lemma uploadFiles_leaves_nothing_pending_witness :
  Forall settled (uploadFiles (fun k => if Nat.even k then Uploaded
                                         else UploadFailed None)
                    Samples.sampleUploads).
Proof.
  refine (proj1 (proj2 (proj2 (proj2 (proj2
            (uploadFiles_leaves_nothing_pending
               (fun k => if Nat.even k then Uploaded else UploadFailed None)
               Samples.sampleUploads))))) _).
  repeat constructor; discriminate.
Defined.

Lemma followEntry_at (outcome : nat -> UploadOutcome) (pendingFiles : list UploadFile) :
  NoDup (map up_id pendingFiles) ->
  forall (k j : nat) (p f : UploadFile),
    pendingFiles !! j = Some p -> up_id f = up_id p ->
    followEntry outcome k pendingFiles f = settleEntry (outcome (k + j)%nat) f.
Proof.
  induction pendingFiles as [|u rest IH]; intros Hnd k j p f Hj Hid;
    [discriminate|].
  inversion Hnd as [|x l Hnotin Hnd']; subst.
  rewrite list_elem_of_In in Hnotin.
  destruct j as [|j]; simpl in Hj |- *.
  - injection Hj as ->. rewrite Hid, String.eqb_refl, Nat.add_0_r.
    apply followEntry_untouched. intros q Hq Heq. apply Hnotin.
    rewrite (proj1 (settleEntry_id (outcome k) f)), Hid in Heq.
    rewrite <- Heq. now apply in_map.
  - destruct (String.eqb_spec (up_id f) (up_id u)) as [E|_].
    + exfalso. apply Hnotin. rewrite <- E, Hid.
      apply in_map. apply list_elem_of_In. eapply list_elem_of_lookup_2, Hj.
    + rewrite (IH Hnd' (S k) j p f Hj Hid). f_equal. f_equal. lia.
Qed.

Lemma NoDup_map_filter {A B : Type} (g : A -> B) (P : A -> bool) (l : list A) :
  NoDup (map g l) -> NoDup (map g (List.filter P l)).
Proof.
  induction l as [|x l IH]; simpl; intros Hnd; [constructor|].
  inversion Hnd as [|y l' Hnotin Hnd']; subst.
  rewrite list_elem_of_In in Hnotin.
  destruct (P x); simpl; [|now apply IH].
  constructor; [rewrite list_elem_of_In|now apply IH].
  intros Hin. apply Hnotin. apply in_map_iff in Hin as (z & Hz & Hzin).
  apply filter_In in Hzin as [Hzin _]. rewrite <- Hz. now apply in_map.
Qed.


(** X23. When the ids in the list are pairwise different, each pending
    file gets the result of its own upload: the [k]-th pending file ends
    as success with progress 100 if the [k]-th call is fulfilled, and as
    error with progress 0 and a non-empty error text (the error's message,
    or "Upload failed") if it is rejected.  Files that were not pending
    are not touched. *)
Theorem uploadFiles_gives_each_file_its_own_result
    (outcome : nat -> UploadOutcome) (files : list UploadFile)
    (k : nat) (f : UploadFile) :
  NoDup (map up_id files) ->
  List.filter isPending files !! k = Some f ->
  (exists f' : UploadFile,
      In f' (uploadFiles outcome files)
      /\ up_id f' = up_id f /\ up_file f' = up_file f
      /\ match outcome k with
         | Uploaded => up_status f' = Success /\ up_progress f' = 100
         | UploadFailed message =>
             up_status f' = Error /\ up_progress f' = 0
             /\ exists text : string,
                  up_error f' = Some text /\ text <> ""
                  /\ (forall m : string, message = Some m -> m <> "" -> text = m)
         end)
  /\ (forall g : UploadFile,
        In g files -> up_status g <> Pending -> In g (uploadFiles outcome files)).
Proof.
  intros Hnd Hk.
  assert (Hf : In f files /\ up_status f = Pending).
  { apply In_filter_pending, list_elem_of_In. eapply list_elem_of_lookup_2, Hk. }
  destruct Hf as [Hin Hs].
  assert (Hmap : uploadFiles outcome files
                 = map (followEntry outcome 0 (List.filter isPending files)) files).
  { unfold uploadFiles. apply uploadLoop_map. }
  split.
  - exists (settleEntry (outcome k) f). split.
    + rewrite Hmap. apply in_map_iff. exists f. split; [|exact Hin].
      apply (followEntry_at outcome (List.filter isPending files)
               (NoDup_map_filter up_id isPending files Hnd) 0 k f f Hk eq_refl).
    + split; [apply settleEntry_id|]. split; [apply settleEntry_id|].
      destruct (outcome k) as [|message]; simpl; [split; reflexivity|].
      split; [reflexivity|]. split; [reflexivity|].
      eexists. split; [reflexivity|]. split.
      * destruct message as [m|]; [|discriminate].
        destruct (String.eqb_spec m ""); [discriminate|assumption].
      * intros m -> Hm. destruct (String.eqb_spec m ""); [contradiction|reflexivity].
  - intros g Hg Hgs. rewrite Hmap. apply in_map_iff. exists g. split; [|exact Hg].
    apply followEntry_untouched. intros p Hp Heq.
    apply In_filter_pending in Hp as [Hp Hps].
    assert (p = g); [|congruence].
    clear - Hnd Hp Hg Heq. induction files as [|x files IH]; [destruct Hp|].
    simpl in Hnd. inversion Hnd as [|y l Hnotin Hnd']; subst.
    rewrite list_elem_of_In in Hnotin.
    destruct Hp as [->|Hp], Hg as [->|Hg]; auto.
    + exfalso. apply Hnotin. rewrite Heq. now apply in_map.
    + exfalso. apply Hnotin. rewrite <- Heq. now apply in_map.
Qed.

Lemma uploadFiles_gives_each_file_its_own_result_witness :
  In Samples.doneUpload
    (uploadFiles (fun _ => UploadFailed (Some "too large")) Samples.sampleUploads).
Proof.
  refine (proj2 (uploadFiles_gives_each_file_its_own_result
            (fun _ => UploadFailed (Some "too large")) Samples.sampleUploads
            0 _ _ _) Samples.doneUpload _ _).
  - cbn. repeat (constructor;
                 [rewrite list_elem_of_In; simpl; intuition discriminate|]).
    constructor.
  - reflexivity.
  - simpl. auto.
  - discriminate.
Defined.

End UploadFacts.

(* ===================================================================== *)
(** ** Properties of the scrape form, the batch ingest and the document list *)
(* ===================================================================== *)

Module ScraperFacts.
Import Js JsString URLScraper.

Lemma addUrl_wellFormed (validateUrl : string -> bool) (id : string) (s : Form) :
  Forall (wellFormedJob validateUrl) (urls s) ->
  Forall (wellFormedJob validateUrl) (urls (addUrl validateUrl id s)).
Proof.
  intros H. unfold addUrl.
  destruct (String.eqb_spec (trim (newUrl s)) "") as [|Hu]; [exact H|].
  destruct (String.eqb_spec (trim (sourceName s)) "") as [|Hn]; [exact H|].
  simpl. destruct (validateUrl (trim (newUrl s))) eqn:Hv; simpl; [|exact H].
  apply Forall_app. split; [exact H|].
  constructor; [|constructor].
  unfold wellFormedJob. simpl.
  rewrite !InputFacts.trim_idempotent. auto.
Qed.

Lemma formStep_wellFormed (validateUrl : string -> bool) (op : FormOp) (s : Form) :
  Forall (wellFormedJob validateUrl) (urls s) ->
  Forall (wellFormedJob validateUrl) (urls (formStep validateUrl op s)).
Proof.
  intros H. destruct op; simpl; try exact H.
  - now apply addUrl_wellFormed.
  - apply List.Forall_forall. intros u Hu. apply filter_In in Hu as [Hu _].
    rewrite List.Forall_forall in H. now apply H.
Qed.

(** X24. Every job the scrape form ever lists, after any typing, picking,
    adding and removing, has a URL and a source name that are non-empty
    and carry no surrounding white space, and a URL that passed
    validation.  Adding with a blank URL or source name changes nothing;
    adding an invalid URL only raises the invalid mark and keeps what was
    typed. *)
Theorem scrape_jobs_are_well_formed
    (validateUrl : string -> bool) (ops : list FormOp) (id : string) (s : Form) :
  Forall (wellFormedJob validateUrl) (urls (formRun validateUrl ops initialForm))
  /\ (trim (newUrl s) = "" \/ trim (sourceName s) = "" ->
      addUrl validateUrl id s = s)
  /\ (trim (newUrl s) <> "" -> trim (sourceName s) <> "" ->
      validateUrl (trim (newUrl s)) = false ->
      addUrl validateUrl id s
      = {| urls := urls s; newUrl := newUrl s; sourceName := sourceName s;
           isValidUrl := false |}).
Proof.
  split; [|split].
  - assert (H : forall s0 : Form,
               Forall (wellFormedJob validateUrl) (urls s0) ->
               Forall (wellFormedJob validateUrl) (urls (formRun validateUrl ops s0))).
    { induction ops as [|op ops IH]; intros s0 H0; [exact H0|].
      apply IH, formStep_wellFormed, H0. }
    apply H. constructor.
  - intros [H|H]; unfold addUrl; rewrite H; [reflexivity|].
    now rewrite orb_true_r.
  - intros Hu Hn Hv. unfold addUrl.
    destruct (String.eqb_spec (trim (newUrl s)) ""); [contradiction|].
    destruct (String.eqb_spec (trim (sourceName s)) ""); [contradiction|].
    simpl. now rewrite Hv.
Qed.

Lemma scrape_jobs_are_well_formed_witness :
  addUrl (fun url => String.prefix "http" url) "j1"
    {| urls := []; newUrl := " ftp://x "; sourceName := "X"; isValidUrl := true |}
  = {| urls := []; newUrl := " ftp://x "; sourceName := "X"; isValidUrl := false |}.
Proof.
  refine (proj2 (proj2 (scrape_jobs_are_well_formed
            (fun url => String.prefix "http" url) [] "j1"
            {| urls := []; newUrl := " ftp://x "; sourceName := "X";
               isValidUrl := true |})) _ _ _).
  - vm_compute. discriminate.
  - discriminate.
  - reflexivity.
Defined.

Lemma countLoop_total (ingest : nat -> bool) (selectedLinks : list Link) :
  forall (k : nat) (sc fc : Z),
    fst (countLoop ingest k selectedLinks sc fc)
    + snd (countLoop ingest k selectedLinks sc fc)
    = sc + fc + Z.of_nat (length selectedLinks)
    /\ sc <= fst (countLoop ingest k selectedLinks sc fc)
    /\ fc <= snd (countLoop ingest k selectedLinks sc fc).
Proof.
  induction selectedLinks as [|l rest IH]; intros k sc fc; simpl.
  - lia.
  - destruct (ingest k).
    + destruct (IH (S k) (sc + 1) fc) as (H1 & H2 & H3). lia.
    + destruct (IH (S k) sc (fc + 1)) as (H1 & H2 & H3). lia.
Qed.

(** X25. [processSelectedUrls] counts every selected link once, as a
    success or as a failure.  The first pending job, when there is one, is
    then marked success and given the batch result with these counts,
    even when every single ingestion failed; the function marks no job as
    error.  Jobs with another id are left as they were, and without a
    pending job the list is unchanged. *)
Theorem processSelectedUrls_reports_success
    (ingest : nat -> bool) (selectedLinks : list Link) (jobs : list ScrapeJob) :
  let successCount := fst (countLoop ingest 0 selectedLinks 0 0) in
  let failCount := snd (countLoop ingest 0 selectedLinks 0 0) in
  let jobs' := processSelectedUrls ingest selectedLinks jobs in
  successCount + failCount = Z.of_nat (length selectedLinks)
  /\ 0 <= successCount /\ 0 <= failCount
  /\ length jobs' = length jobs
  /\ (forall u : ScrapeJob, In u jobs' -> job_status u = JobError -> In u jobs)
  /\ (List.find (fun u => JobStatus_eqb (job_status u) JobPending) jobs = None ->
      jobs' = jobs)
  /\ (forall currentJob : ScrapeJob,
        List.find (fun u => JobStatus_eqb (job_status u) JobPending) jobs
        = Some currentJob ->
        (forall u : ScrapeJob,
            In u jobs -> job_id u <> job_id currentJob -> In u jobs')
        /\ exists u : ScrapeJob,
             In u jobs' /\ job_id u = job_id currentJob
             /\ job_url u = job_url currentJob
             /\ job_status u = JobSuccess
             /\ job_result u
                = Some (IngestSummary [] successCount "url_batch"
                          ("Processed " +:+ pretty successCount +:+ " URLs, "
                             +:+ pretty failCount +:+ " failed") None)).
Proof.
  intros successCount failCount jobs'.
  destruct (countLoop_total ingest selectedLinks 0 0 0) as (Hsum & Hs & Hf).
  fold successCount failCount in Hsum, Hs, Hf.
  split; [lia|]. split; [exact Hs|]. split; [exact Hf|].
  subst jobs'. unfold processSelectedUrls.
  destruct (countLoop ingest 0 selectedLinks 0 0) as [sc fc] eqn:Hc.
  simpl in successCount, failCount. subst successCount failCount.
  destruct (List.find (fun u => JobStatus_eqb (job_status u) JobPending) jobs)
    as [cur|] eqn:Hfind.
  - split; [apply length_map|]. split; [|split; [discriminate|]].
    + intros u Hu Herr. apply in_map_iff in Hu as (v & Hv & Hin).
      destruct (job_id v =? job_id cur)%string; subst u; [discriminate|exact Hin].
    + intros currentJob Heq. injection Heq as <-. split.
      * intros u Hin Hne. apply in_map_iff. exists u. split; [|exact Hin].
        destruct (String.eqb_spec (job_id u) (job_id cur)); [contradiction|reflexivity].
      * apply find_some in Hfind as [Hin _].
        eexists. split; [apply in_map_iff; exists cur; split; [|exact Hin]|].
        -- rewrite String.eqb_refl. reflexivity.
        -- repeat split.
  - split; [reflexivity|]. split; [auto|]. split; [reflexivity|discriminate].
Qed.

Lemma processSelectedUrls_reports_success_witness :
  exists u : ScrapeJob,
    In u (processSelectedUrls (fun _ => false)
            [ {| link_title := "a"; link_url := "http://a"; link_description := "";
                 link_selected := true |} ]
            [ {| job_id := "j1"; job_url := "http://site"; job_sourceName := "Site";
                 job_status := JobPending; job_result := None;
                 job_error := None |} ])
    /\ job_id u = "j1" /\ job_url u = "http://site"
    /\ job_status u = JobSuccess
    /\ job_result u
       = Some (IngestSummary [] 0 "url_batch" "Processed 0 URLs, 1 failed" None).
Proof.
  destruct (processSelectedUrls_reports_success (fun _ => false)
              [ {| link_title := "a"; link_url := "http://a";
                   link_description := ""; link_selected := true |} ]
              [ {| job_id := "j1"; job_url := "http://site";
                   job_sourceName := "Site"; job_status := JobPending;
                   job_result := None; job_error := None |} ])
    as (_ & _ & _ & _ & _ & _ & H).
  exact (proj2 (H {| job_id := "j1"; job_url := "http://site";
                     job_sourceName := "Site"; job_status := JobPending;
                     job_result := None; job_error := None |} eq_refl)).
Defined.

End ScraperFacts.

Module DocumentFacts.
Import Js JsString DocumentList.






End DocumentFacts.

(* ===================================================================== *)
(** ** Further invariants of the view and of the auth reducer *)
(* ===================================================================== *)

Module HistoryFacts.
Import Js Types Chat Sessions Samples.

Lemma loadSession_status (api : ChatApi) (sessionId : string) (s : State) :
  statusMessages (loadSession api sessionId s) = statusMessages s.
Proof. unfold loadSession. now destruct (api_getSession api sessionId). Qed.

Lemma session_ops_status (api : ChatApi) (sessionId : string) (s : State) :
  statusMessages (loadSessions api s) = statusMessages s
  /\ statusMessages (createNewSession api None s) = statusMessages s
  /\ statusMessages (deleteSession api sessionId s) = statusMessages s
  /\ statusMessages (clearSession api sessionId s) = statusMessages s.
Proof.
  split; [|split; [|split]].
  - unfold loadSessions, loadSessionsFrom.
    destruct (api_getSessions api) as [[|first rest]|]; try reflexivity.
    cbn [statusMessages setIsLoading]. now rewrite loadSession_status.
  - unfold createNewSession. now destruct (api_createSession api None).
  - unfold deleteSession.
    destruct (api_deleteSession api sessionId); [|reflexivity].
    destruct (isCurrent (currentSession s) sessionId); [|reflexivity].
    destruct (List.filter (otherThan sessionId) (sessions s)); [reflexivity|].
    now rewrite loadSession_status.
  - unfold clearSession.
    destruct (api_clearSession api sessionId); [|reflexivity].
    now destruct (isCurrent (currentSession s) sessionId).
Qed.

Lemma perform_noAdjacentDup (a : Action) (s : State) :
  noAdjacentDup (statusMessages s) -> noAdjacentDup (statusMessages (perform a s)).
Proof.
  intros H. destruct a; cbn [perform].
  - now rewrite (proj1 (session_ops_status api "" s)).
  - unfold handleSessionSelect. now rewrite loadSession_status.
  - now rewrite (proj1 (proj2 (session_ops_status api "" s))).
  - now rewrite (proj1 (proj2 (proj2 (session_ops_status api sessionId s)))).
  - now rewrite (proj2 (proj2 (proj2 (session_ops_status api sessionId s)))).
  - unfold sendMessage.
    destruct (sendMessage_begin tId tCreated content s) as [[[s1 um] req]|] eqn:Hb;
      [|exact H].
    destruct (api req) as [during outcome].
    assert (Hs1 : statusMessages s1 = []).
    { unfold sendMessage_begin in Hb.
      destruct (currentSession s); [|discriminate].
      destruct (trim content =? "")%string; [discriminate|].
      now injection Hb as <- _ _. }
    assert (Hrun : noAdjacentDup (statusMessages (run during s1))).
    { apply NarratorFacts.run_noAdjacentDup. rewrite Hs1.
      apply NarratorFacts.noAdjacentDup_nil. }
    now destruct outcome.
  - now apply NarratorFacts.step_noAdjacentDup.
  - exact H.
  - exact H.
Qed.

(** X27. Over any history of complete operations on the view (session
    operations, sends with whatever arrives during them, socket events,
    timers, sidebar and error clicks), the status list never holds the
    same line twice in a row. *)
Theorem narrative_never_repeats_over_any_history (actions : list Action) :
  noAdjacentDup (statusMessages (performAll actions initialState)).
Proof.
  apply (SessionFacts.performAll_invariant
           (fun s => noAdjacentDup (statusMessages s)) perform_noAdjacentDup).
  apply NarratorFacts.noAdjacentDup_nil.
Qed.



End HistoryFacts.

Module ReducerFacts.
Import Types Auth.

Lemma authReducer_error_means_failed (s : AuthState) (a : AuthAction) :
  (error s <> None ->
   isAuthenticated s = false /\ isLoading s = false /\ user s = None /\ token s = None) ->
  error (authReducer s a) <> None ->
  isAuthenticated (authReducer s a) = false /\ isLoading (authReducer s a) = false
  /\ user (authReducer s a) = None /\ token (authReducer s a) = None.
Proof.
  intros H. destruct a; simpl; intros He; try contradiction; auto.
Qed.

(** X29. In every state the auth reducer reaches from the initial state,
    an error text is present only right after a failed attempt: whenever
    [error] is non-null, the state is signed out, holds no user and no
    token, and is not loading.  Starting an attempt, succeeding, logging
    out and clearing the error all remove the text. *)
Theorem auth_error_only_after_failure (actions : list AuthAction) (a : AuthAction) :
  (error (dispatchAll actions) <> None ->
   isAuthenticated (dispatchAll actions) = false
   /\ isLoading (dispatchAll actions) = false
   /\ user (dispatchAll actions) = None /\ token (dispatchAll actions) = None)
  /\ ((forall text : string, a <> AUTH_ERROR text) ->
      error (authReducer (dispatchAll actions) a) = None).
Proof.
  split.
  - unfold dispatchAll.
    assert (H : forall s : AuthState,
               (error s <> None ->
                isAuthenticated s = false /\ isLoading s = false
                /\ user s = None /\ token s = None) ->
               error (fold_left authReducer actions s) <> None ->
               isAuthenticated (fold_left authReducer actions s) = false
               /\ isLoading (fold_left authReducer actions s) = false
               /\ user (fold_left authReducer actions s) = None
               /\ token (fold_left authReducer actions s) = None).
    { induction actions as [|x actions IH]; intros s Hs; [exact Hs|].
      simpl. apply IH. now apply authReducer_error_means_failed. }
    apply H. intros He. now contradiction He.
  - intros Hne. destruct a; try reflexivity.
    now contradiction (Hne payload).
Qed.

Lemma auth_error_only_after_failure_witness :
  isAuthenticated (dispatchAll [AUTH_SUCCESS Samples.sampleResponse; AUTH_START;
                                AUTH_ERROR "bad"]) = false
  /\ isLoading (dispatchAll [AUTH_SUCCESS Samples.sampleResponse; AUTH_START;
                             AUTH_ERROR "bad"]) = false
  /\ user (dispatchAll [AUTH_SUCCESS Samples.sampleResponse; AUTH_START;
                        AUTH_ERROR "bad"]) = None
  /\ token (dispatchAll [AUTH_SUCCESS Samples.sampleResponse; AUTH_START;
                         AUTH_ERROR "bad"]) = None.
Proof.
  refine (proj1 (auth_error_only_after_failure
            [AUTH_SUCCESS Samples.sampleResponse; AUTH_START; AUTH_ERROR "bad"]
            AUTH_LOGOUT) _).
  discriminate.
Defined.

End ReducerFacts.
